(** * node-webshot-server: the store / generate / fetch workflow

    A shallow embedding of [api.js] (the WebshotAPI module) and of the
    request handlers that call it ([store], [getStoredImage], [generate]),
    together with the properties of the workflow.

    The JavaScript is callback style; every callback is called exactly once,
    so a function [f(args, callback)] is embedded as a computation in a state
    monad over the outside world (bucket, local disk, log of the calls made to
    the collaborators) whose result is what the callback receives:
    [inl err] for [callback(err)], [inr v] for [callback(null, v)]. *)

From Stdlib Require Import Ascii String ZArith Lia.
From stdpp Require Import base option list strings pretty gmap.

Local Open Scope string_scope.
Local Open Scope list_scope.
Local Open Scope Z_scope.

(** ** JavaScript values

    The values that reach the option fields: [undefined], [null], booleans,
    numbers and strings.  Numbers are the integers (the option fields are
    pixel and millisecond counts); [NaN] and fractions are outside the model. *)

Inductive JsVal :=
| VUndefined
| VNull
| VBool (b : bool)
| VNum (n : Z)
| VStr (s : string).

(** ToBoolean *)
Definition truthy (v : JsVal) : bool :=
  match v with
  | VUndefined | VNull => false
  | VBool b => b
  | VNum n => negb (Z.eqb n 0)
  | VStr s => negb (String.eqb s "")
  end.

Definition falsy (v : JsVal) : bool := negb (truthy v).

(** [a || b] *)
Definition js_or (a b : JsVal) : JsVal := if truthy a then a else b.

(** [v === true] *)
Definition js_is_true (v : JsVal) : bool :=
  match v with VBool true => true | _ => false end.

(** ** Data of the workflow *)

(** The [options] object of [store] and [generate]; a property that is not
    set reads as [undefined]. *)
Record Options := mkOptions {
  width : JsVal;
  height : JsVal;
  delay : JsVal;
  userAgent : JsVal;
  full : JsVal
}.

(** [{}] *)
Definition empty_options : Options :=
  mkOptions VUndefined VUndefined VUndefined VUndefined VUndefined.

(** The options object handed to [webshot]. *)
Record WebshotOptions := mkWebshotOptions {
  renderDelay : JsVal;
  windowSize_width : JsVal;
  windowSize_height : JsVal;
  shotSize_width : string;
  shotSize_height : string;
  ws_userAgent : JsVal;
  phantomConfig_ignore_ssl_errors : bool;
  phantomConfig_ssl_protocol : string
}.

(** [new Date(year, monthIndex, day)] *)
Record JsDate := mkDate { date_year : Z; date_monthIndex : Z; date_day : Z }.

(** The parameters of [s3.upload]; [Body] is the content of the file the
    read stream was opened on ([None] when there is no such file). *)
Record UploadParams := mkUpload {
  Body : option (list Byte.byte);
  Bucket : string;
  CacheControl : string;
  ContentType : string;
  Expires : JsDate;
  Key : string
}.

(** An object held by the bucket. *)
Record S3Object := mkObject {
  obj_body : list Byte.byte;
  obj_contentType : string;
  obj_cacheControl : string;
  obj_expires : JsDate
}.

(** An error of the AWS SDK. *)
Record AwsError := mkAwsError { aws_code : string; aws_message : string }.

(** The error objects of the API: [{'code': c, 'msg': m}] and
    [{'code': c, 'message': m}]; a property that is not set reads as
    [undefined] ([None]). *)
Record ApiError := mkErr {
  code : Z;
  msg : option string;
  message : option string
}.

(** What [Url.parse] returns, as far as the handlers read it; [None] is
    [null]. *)
Record ParsedUrl := mkUrl {
  protocol : option string;
  hostname : option string;
  pathname : option string
}.

(** ** The outside world *)

(** The calls made to the collaborators, oldest first. *)
Inductive Event :=
| EvGetObject (bucket key : string)
| EvWebshot (url path : string) (o : WebshotOptions)
| EvUpload (p : UploadParams)
| EvUnlink (path : string)
| EvGetSignedUrl (operation bucket key : string).

Record World := mkWorld {
  bucket : gmap string S3Object;
  disk : gmap string (list Byte.byte);
  log : list Event
}.

Definition record (e : Event) (w : World) : World :=
  mkWorld (bucket w) (disk w) (log w ++ [e]).

(** The invocations of the Renderer and the uploads found in a log. *)
Definition renderer_calls (l : list Event) : list (string * string * WebshotOptions) :=
  omap (fun e => match e with EvWebshot u p o => Some (u, p, o) | _ => None end) l.

Definition uploads (l : list Event) : list UploadParams :=
  omap (fun e => match e with EvUpload p => Some p | _ => None end) l.

Definition unlinks (l : list Event) : list string :=
  omap (fun e => match e with EvUnlink p => Some p | _ => None end) l.

(** ** The state monad of the callbacks *)

Definition M (A : Type) : Type := World -> A * World.

Definition ret {A} (a : A) : M A := fun w => (a, w).

Definition bind {A B} (m : M A) (k : A -> M B) : M B :=
  fun w => let (a, w') := m w in k a w'.

Notation "'call' x <- m ; k" := (bind m (fun x => k))
  (at level 10, x name, m at level 100, k at level 200).

(** ** The platform

    What the code takes from Node, from its modules and from the process
    environment. *)
Class Node := {
  AWS_S3_BUCKET : string;
  AWS_S3_DIRECTORY : string;
  (** [path.join(a, b)] *)
  path_join : string -> string -> string;
  (** [Url.parse(url)] *)
  Url_parse : string -> ParsedUrl;
  (** [temp.path({suffix: '.png'})] *)
  temp_path : World -> string;
  (** [s > k] for a string [s] and a number [k] (string to number
      conversion, then comparison) *)
  StringToNumber_gt : string -> Z -> bool
}.

(** What the collaborators answer: the faults of the storage service and of
    the file system, the rendering engine and the signing of URLs.  Each may
    depend on everything that happened before. *)
Class Outside := {
  (** an error of [s3.getObject] other than the absence of the key *)
  getObject_fault : World -> string -> option AwsError;
  (** whether [s3.upload] fails *)
  upload_fault : World -> UploadParams -> bool;
  (** [s3.getSignedUrl(operation, {Bucket, Key})] *)
  getSignedUrl : World -> string -> string -> string -> string;
  (** the image [webshot] renders, [None] when it fails *)
  render : World -> string -> WebshotOptions -> option (list Byte.byte);
  (** whether [fs.unlink] fails *)
  unlink_fault : World -> string -> bool
}.

(** ** api.js *)

Module WebshotAPI.
Section Api.
Context `{node : Node} `{out : Outside}.

(** [v > k] for a number [k] *)
Definition js_gt (v : JsVal) (k : Z) : bool :=
  match v with
  | VUndefined => false
  | VNull => k <? 0
  | VBool b => k <? (if b then 1 else 0)
  | VNum n => k <? n
  | VStr s => StringToNumber_gt s k
  end.

(** *** The collaborators *)

(** [s3.getObject({Bucket, Key}, callback)] *)
Definition s3_getObject (Bucket Key : string) : M (AwsError + S3Object) :=
  fun w =>
    let w1 := record (EvGetObject Bucket Key) w in
    match getObject_fault w Key with
    | Some e => (inl e, w1)
    | None =>
        match bucket w !! Key with
        | Some o => (inr o, w1)
        | None => (inl (mkAwsError "NoSuchKey" "The specified key does not exist."), w1)
        end
    end.

(** [s3.upload(params, callback)]: the callback receives the upload error,
    if any.  A stream on a file that is not there fails the upload. *)
Definition s3_upload (p : UploadParams) : M bool :=
  fun w =>
    let w1 := record (EvUpload p) w in
    match Body p with
    | None => (true, w1)
    | Some bytes =>
        if upload_fault w p then (true, w1)
        else
          (false,
           mkWorld
             (<[Key p := mkObject bytes (ContentType p) (CacheControl p) (Expires p)]>
                (bucket w1))
             (disk w1) (log w1))
    end.

(** [fs.createReadStream(path)] *)
Definition fs_createReadStream (path : string) : M (option (list Byte.byte)) :=
  fun w => (disk w !! path, w).

(** [fs.unlink(path, callback)]: the callback receives the error, if any *)
Definition fs_unlink (path : string) : M bool :=
  fun w =>
    let w1 := record (EvUnlink path) w in
    if unlink_fault w path then (true, w1)
    else (false, mkWorld (bucket w1) (delete path (disk w1)) (log w1)).

(** [webshot(url, path, options, callback)]: the callback receives the
    error, if any; on success the image is in the file at [path]. *)
Definition webshot (url path : string) (o : WebshotOptions) : M bool :=
  fun w =>
    let w1 := record (EvWebshot url path o) w in
    match render w url o with
    | None => (true, w1)
    | Some bytes => (false, mkWorld (bucket w1) (<[path := bytes]> (disk w1)) (log w1))
    end.

(** [s3.getSignedUrl(operation, {Bucket, Key})] *)
Definition s3_getSignedUrl (operation Bucket Key : string) : M string :=
  fun w => (getSignedUrl w operation Bucket Key, record (EvGetSignedUrl operation Bucket Key) w).

(** *** The functions of the module *)

Definition getS3Key (name : string) : string :=
  path_join AWS_S3_DIRECTORY name.

Definition checkFileExists (name : string) : M (ApiError + bool) :=
  call r <- s3_getObject AWS_S3_BUCKET (getS3Key name);
  match r with
  | inl err =>
      if negb (String.eqb (aws_code err) "NoSuchKey")
      then ret (inl (mkErr 500 None (Some (aws_message err))))
      else ret (inr false)
  | inr data => ret (inr true)
  end.

(** The object [screengrab] builds for [webshot]. *)
Definition webshotOptions (options : Options) : WebshotOptions :=
  {| renderDelay := delay options;
     windowSize_width := width options;
     windowSize_height := height options;
     shotSize_width := "window";
     shotSize_height := if js_is_true (full options) then "all" else "window";
     ws_userAgent := userAgent options;
     phantomConfig_ignore_ssl_errors := true;
     phantomConfig_ssl_protocol := "any" |}.

Definition screengrab (url : string) (options : Options) : M (ApiError + string) :=
  fun w =>
    let tempPath := temp_path w in
    (call err <- webshot url tempPath (webshotOptions options);
     if (err : bool)
     then ret (inl (mkErr 500 (Some "Unable to take a screenshot") None))
     else ret (inr tempPath)) w.

(** The assignments [generate] makes to [options] before the screenshot. *)
Definition generate_options (options : option Options) : Options :=
  let options := match options with Some o => o | None => empty_options end in
  let options := mkOptions (js_or (width options) (VNum 1024)) (height options)
                   (delay options) (userAgent options) (full options) in
  let options := mkOptions (width options) (js_or (height options) (VNum 768))
                   (delay options) (userAgent options) (full options) in
  let options := mkOptions (width options) (height options)
                   (js_or (delay options) (VNum 0)) (userAgent options) (full options) in
  let options := mkOptions (width options) (height options)
                   (delay options) (js_or (userAgent options) (VStr "")) (full options) in
  if js_gt (delay options) 10000
  then mkOptions (width options) (height options) (VNum 10000)
         (userAgent options) (full options)
  else options.

Definition generate (url : string) (options : option Options) : M (ApiError + string) :=
  screengrab url (generate_options options).

Definition store (name url : string) (options : option Options) : M (ApiError + unit) :=
  call r <- checkFileExists name;
  match r with
  | inl err => ret (inl err)
  | inr true => ret (inl (mkErr 400 (Some "A URL by that name already exists") None))
  | inr false =>
      call g <- generate url options;
      match g with
      | inl err => ret (inl err)
      | inr imagePath =>
          call body <- fs_createReadStream imagePath;
          call uploadError <- s3_upload
            {| Body := body;
               Bucket := AWS_S3_BUCKET;
               CacheControl := "max-age=315360000";
               ContentType := "image/jpeg";
               Expires := mkDate 2035 1 1;
               Key := getS3Key name |};
          call unlinkError <- fs_unlink imagePath;
          if (uploadError : bool)
          then ret (inl (mkErr 500 None
                 (Some "Unable to upload the rendered image of the website to S3")))
          else ret (inr tt)
      end
  end.

(** The error of a failed upload. *)
Definition upload_failed : ApiError :=
  mkErr 500 None (Some "Unable to upload the rendered image of the website to S3").

(** The parameters [store] uploads the bytes of an image with. *)
Definition store_upload (name : string) (bytes : list Byte.byte) : UploadParams :=
  {| Body := Some bytes;
     Bucket := AWS_S3_BUCKET;
     CacheControl := "max-age=315360000";
     ContentType := "image/jpeg";
     Expires := mkDate 2035 1 1;
     Key := getS3Key name |}.

Definition getStoredImageUrl (name : string) : M (ApiError + string) :=
  call r <- checkFileExists name;
  match r with
  | inl err => ret (inl err)
  | inr false => ret (inl (mkErr 404 (Some "A URL by that name does not exist") None))
  | inr true =>
      call url <- s3_getSignedUrl "getObject" AWS_S3_BUCKET (getS3Key name);
      ret (inr url)
  end.

End Api.
End WebshotAPI.

(** ** The request handlers *)

(** The parameters of a request: [req.param(k)] is the string sent under
    [k], or [undefined]. *)
Definition Request := gmap string string.

(** What [res.send(status, body)] is given as body: a string or [undefined]
    (an error's [msg] or [message]), or the object [{'url': u}]. *)
Inductive SendBody :=
| BodyText (text : option string)
| BodyUrl (url : string).

(** The answer of a handler.  [Download] carries the path and the content of
    the file sent, and the name suggested for it; [Uncaught] is an exception
    no handler catches. *)
Inductive Response :=
| Send (status : Z) (body : SendBody)
| Redirect (url : string)
| Download (path : string) (content : option (list Byte.byte)) (filename : string)
| Uncaught (error : string).

(** [c] matches [\w] *)
Definition is_word_char (c : ascii) : bool :=
  let n := nat_of_ascii c in
  ((48 <=? n) && (n <=? 57) || (65 <=? n) && (n <=? 90)
   || (97 <=? n) && (n <=? 122) || (n =? 95))%nat.

(** [s.replace(/\W/g, '_')] *)
Fixpoint replace_nonword (s : string) : string :=
  match s with
  | EmptyString => EmptyString
  | String c s' => String (if is_word_char c then c else "_"%char) (replace_nonword s')
  end.

(** [s.replace(/_$/, '')]: without the [m] flag [$] is the end of the string *)
Fixpoint replace_final_underscore (s : string) : string :=
  match s with
  | EmptyString => EmptyString
  | String c EmptyString => if Ascii.eqb c "_" then EmptyString else s
  | String c s' => String c (replace_final_underscore s')
  end.

(** [!s] for a string that may be [undefined] or [null] *)
Definition str_falsy (s : option string) : bool :=
  match s with
  | None => true
  | Some s => String.eqb s ""
  end.

(** The name [generate] constructs for the download.  Reading [replace] of a
    [pathname] or [hostname] that is [null] throws. *)
Definition imageName (parsedUrl : ParsedUrl) : option string :=
  match hostname parsedUrl with
  | None => None
  | Some host =>
      let imageName := replace_nonword host in
      match pathname parsedUrl with
      | None => None
      | Some path =>
          let pathName := replace_final_underscore (replace_nonword path) in
          let imageName :=
            if negb (String.eqb pathName "") then imageName +:+ pathName else imageName in
          Some (imageName +:+ ".png")
      end
  end.

Module Routes.
Section Handlers.
Context `{node : Node} `{out : Outside}.

Definition param (req : Request) (k : string) : JsVal :=
  match req !! k with
  | Some s => VStr s
  | None => VUndefined
  end.

(** The [options] object both handlers build from the request. *)
Definition request_options (req : Request) : Options :=
  {| width := param req "width";
     height := param req "height";
     delay := param req "delay";
     userAgent := param req "userAgent";
     full := VBool (bool_decide (req !! "full" = Some "true")) |}.

Definition store (req : Request) : M Response :=
  let name := req !! "name" in
  if str_falsy name then ret (Send 400 (BodyText (Some "Missing name"))) else
  let url := req !! "url" in
  if str_falsy url then ret (Send 400 (BodyText (Some "Missing url"))) else
  let name := default "" name in
  let url := default "" url in
  let parsedUrl := Url_parse url in
  if str_falsy (protocol parsedUrl)
  then ret (Send 400 (BodyText (Some "Invalid url, missing protocol"))) else
  if str_falsy (hostname parsedUrl)
  then ret (Send 400 (BodyText (Some "Invalid url, missing hostname"))) else
  let options := request_options req in
  call r <- WebshotAPI.store name url (Some options);
  match r with
  | inl err => ret (Send (code err) (BodyText (msg err)))
  | inr _ => ret (Send 200 (BodyUrl ("/f/" +:+ name)))
  end.

(** [path.join] refuses an argument that is not a string: without a
    [name] the call throws. *)
Definition getStoredImage (req : Request) : M Response :=
  match req !! "name" with
  | None => ret (Uncaught "TypeError")
  | Some name =>
      call r <- WebshotAPI.getStoredImageUrl name;
      match r with
      | inl err => ret (Send (code err) (BodyText (message err)))
      | inr url => ret (Redirect url)
      end
  end.

Definition generate (req : Request) : M Response :=
  let url := req !! "url" in
  if str_falsy url then ret (Send 400 (BodyText (Some "Missing url"))) else
  let url := default "" url in
  let parsedUrl := Url_parse url in
  if str_falsy (protocol parsedUrl)
  then ret (Send 400 (BodyText (Some "Invalid url, missing protocol"))) else
  if str_falsy (hostname parsedUrl)
  then ret (Send 400 (BodyText (Some "Invalid url, missing hostname"))) else
  let options := request_options req in
  call r <- WebshotAPI.generate url (Some options);
  match r with
  | inl err => ret (Send (code err) (BodyText (msg err)))
  | inr path =>
      match imageName parsedUrl with
      | None => ret (Uncaught "TypeError")
      | Some imageName =>
          call content <- WebshotAPI.fs_createReadStream path;
          call unlinkError <- WebshotAPI.fs_unlink path;
          ret (Download path content imageName)
      end
  end.

End Handlers.
End Routes.

(** ** Vocabulary of the properties *)

(** An option that is not given: the property is not set, or there is no
    [options] object at all. *)
Definition absent (field : Options -> JsVal) (options : option Options) : Prop :=
  match options with
  | Some o => field o = VUndefined
  | None => True
  end.

(** The [options] object with its falsy properties removed. *)
Definition without_falsy (o : Options) : Options :=
  let keep v := if truthy v then v else VUndefined in
  mkOptions (keep (width o)) (keep (height o)) (keep (delay o)) (keep (userAgent o))
    (full o).

(** The delay is a number of milliseconds between 0 and 10000. *)
Definition delay_within_bounds (o : WebshotOptions) : Prop :=
  exists d, renderDelay o = VNum d /\ 0 <= d <= 10000.

(** [s] ends with an underscore. *)
Fixpoint ends_with_underscore (s : string) : bool :=
  match s with
  | EmptyString => false
  | String c EmptyString => Ascii.eqb c "_"
  | String _ s' => ends_with_underscore s'
  end.

(** [s] without the underscores it ends with. *)
Fixpoint trim_trailing_underscores (s : string) : string :=
  match s with
  | EmptyString => EmptyString
  | String c s' =>
      match trim_trailing_underscores s' with
      | EmptyString => if Ascii.eqb c "_" then EmptyString else String c EmptyString
      | t => String c t
      end
  end.

(** The display name in the specification's words: the URL's host and path
    with all non-word characters turned into underscores and trailing
    underscores trimmed, suffixed with the image extension.  (Each non-word
    character gives one underscore, as in the code.) *)
Definition spec_displayName (host path : string) : string :=
  trim_trailing_underscores (replace_nonword (host +:+ path)) +:+ ".png".

(** A URL the handlers accept: given, not empty, and parsed with a protocol
    and a hostname. *)
Definition has_scheme_and_host `{node : Node} (url : option string) : bool :=
  match url with
  | None => false
  | Some u =>
      negb (String.eqb u "")
      && negb (str_falsy (protocol (Url_parse u)))
      && negb (str_falsy (hostname (Url_parse u)))
  end.

(** ** A platform to run the model on

    Executable stand-ins for the Node modules, after their documented
    behaviour on POSIX, and scripted collaborators.  The properties below
    are proved for every platform; this one evaluates them on concrete
    requests. *)

Module Reference.

(** Longest prefix whose characters satisfy [p], and the rest. *)
Fixpoint span (p : ascii -> bool) (s : string) : string * string :=
  match s with
  | EmptyString => (EmptyString, EmptyString)
  | String c s' =>
      if p c then let (a, b) := span p s' in (String c a, b)
      else (EmptyString, s)
  end.

Definition one_of (cs : string) (c : ascii) : bool :=
  bool_decide (c ∈ list_ascii_of_string cs).

Definition lower (c : ascii) : ascii :=
  let n := nat_of_ascii c in
  if ((65 <=? n) && (n <=? 90))%nat then ascii_of_nat (n + 32) else c.

Fixpoint lowercase (s : string) : string :=
  match s with
  | EmptyString => EmptyString
  | String c s' => String (lower c) (lowercase s')
  end.

Definition is_digit (c : ascii) : bool :=
  let n := nat_of_ascii c in ((48 <=? n) && (n <=? 57))%nat.

Definition is_alpha (c : ascii) : bool :=
  let n := nat_of_ascii (lower c) in ((97 <=? n) && (n <=? 122))%nat.

(** [c] matches [[a-z0-9.+-]], case ignored *)
Definition is_scheme_char (c : ascii) : bool :=
  is_alpha c || is_digit c || one_of ".+-" c.

(** [s.split(sep)] *)
Fixpoint split (sep : ascii) (s : string) : list string :=
  match s with
  | EmptyString => [EmptyString]
  | String c s' =>
      if Ascii.eqb c sep then EmptyString :: split sep s'
      else match split sep s' with
           | [] => [String c EmptyString]
           | x :: xs => String c x :: xs
           end
  end.

(** [parts.join(sep)] *)
Fixpoint join (sep : string) (parts : list string) : string :=
  match parts with
  | [] => EmptyString
  | [x] => x
  | x :: xs => x +:+ sep +:+ join sep xs
  end.

(** *** [path.join] *)

(** Resolves [.] and [..]; [stack] holds the segments kept, last first. *)
Fixpoint normalizeArray (parts stack : list string) (allowAboveRoot : bool) : list string :=
  match parts with
  | [] => rev stack
  | seg :: parts' =>
      if String.eqb seg "." then normalizeArray parts' stack allowAboveRoot
      else if String.eqb seg ".." then
        match stack with
        | top :: stack' =>
            if String.eqb top ".." then normalizeArray parts' (seg :: stack) allowAboveRoot
            else normalizeArray parts' stack' allowAboveRoot
        | [] =>
            if allowAboveRoot then normalizeArray parts' [seg] allowAboveRoot
            else normalizeArray parts' [] allowAboveRoot
        end
      else normalizeArray parts' (seg :: stack) allowAboveRoot
  end.

Definition ends_with_slash (s : string) : bool :=
  match rev (list_ascii_of_string s) with
  | c :: _ => Ascii.eqb c "/"
  | [] => false
  end.

Definition normalize (path : string) : string :=
  let isAbsolute := match path with String "/" _ => true | _ => false end in
  let trailingSlash := ends_with_slash path in
  let parts := filter (fun p => p ≠ EmptyString) (split "/" path) in
  let path := join "/" (normalizeArray parts [] (negb isAbsolute)) in
  let path := if String.eqb path "" && negb isAbsolute then "." else path in
  let path := if negb (String.eqb path "") && trailingSlash then path +:+ "/" else path in
  (if isAbsolute then "/" else "") +:+ path.

Definition posix_join (a b : string) : string :=
  normalize (join "/" (filter (fun p => p ≠ EmptyString) [a; b])).

(** *** [Url.parse] *)

Definition slashedProtocol (proto : string) : bool :=
  bool_decide (proto ∈ ["http:"; "https:"; "ftp:"; "gopher:"; "file:"]).

Definition hostlessProtocol (proto : string) : bool :=
  bool_decide (proto = "javascript:").

(** The part of [s] after its last [@]. *)
Definition after_auth (s : string) : string :=
  default s (last (split "@" s)).

(** [host] without its [:port]. *)
Definition without_port (host : string) : string :=
  match rev (split ":" host) with
  | port :: (_ :: _) as front =>
      if forallb is_digit (list_ascii_of_string port)
      then join ":" (rev front) else host
  | _ => host
  end.

Definition legacy_parse (url : string) : ParsedUrl :=
  let (scheme, rest) := span is_scheme_char url in
  match scheme, rest with
  | String _ _, String ":" rest =>
      let proto := lowercase scheme +:+ ":" in
      let slashes := match rest with String "/" (String "/" _) => true | _ => false end in
      let slashes := slashes && negb (hostlessProtocol proto) in
      let rest := if slashes then String.substring 2 (String.length rest) rest else rest in
      let has_host :=
        negb (hostlessProtocol proto) && (slashes || negb (slashedProtocol proto)) in
      let (host, rest) :=
        if has_host then span (fun c => negb (one_of "/?#" c)) rest
        else (EmptyString, rest) in
      let host := lowercase (without_port (after_auth host)) in
      let (path, _) := span (fun c => negb (one_of "?#" c)) rest in
      {| protocol := Some proto;
         hostname := if has_host then Some host else None;
         pathname :=
           if negb (String.eqb path "") then Some path
           else if slashedProtocol proto && negb (String.eqb host "") then Some "/"
           else None |}
  | _, _ =>
      let (path, _) := span (fun c => negb (one_of "?#" c)) url in
      {| protocol := None; hostname := None;
         pathname := if String.eqb path "" then None else Some path |}
  end.

(** *** Strings compared with numbers: decimal integers *)

Fixpoint digits_value (acc : Z) (s : string) : option Z :=
  match s with
  | EmptyString => Some acc
  | String c s' =>
      if is_digit c
      then digits_value (10 * acc + Z.of_nat (nat_of_ascii c - 48)) s'
      else None
  end.

Definition StringToNumber (s : string) : option Z :=
  match s with
  | EmptyString => Some 0
  | String "-" (String _ _ as s') => Z.opp <$> digits_value 0 s'
  | _ => digits_value 0 s
  end.

Definition decimal_gt (s : string) (k : Z) : bool :=
  match StringToNumber s with
  | Some n => k <? n
  | None => false
  end.

Definition node : Node :=
  {| AWS_S3_BUCKET := "webshots";
     AWS_S3_DIRECTORY := "shots";
     path_join := posix_join;
     Url_parse := legacy_parse;
     temp_path := fun w => "/tmp/" +:+ pretty (length (log w)) +:+ ".png";
     StringToNumber_gt := decimal_gt |}.

(** The image every page renders to. *)
Definition png : list Byte.byte := [Byte.x89; Byte.x50; Byte.x4e; Byte.x47].

(** Collaborators scripted by four switches. *)
Definition outside (getObjectFails renderFails uploadFails unlinkFails : bool) : Outside :=
  {| getObject_fault := fun _ _ =>
       if getObjectFails then Some (mkAwsError "NetworkingError" "socket hang up") else None;
     upload_fault := fun _ _ => uploadFails;
     getSignedUrl := fun _ _ Bucket Key =>
       "https://" +:+ Bucket +:+ ".s3.amazonaws.com/" +:+ Key +:+ "?Signature=x";
     render := fun _ _ _ => if renderFails then None else Some png;
     unlink_fault := fun _ _ => unlinkFails |}.

Definition all_well : Outside := outside false false false false.

Definition empty_world : World := mkWorld ∅ ∅ [].

(** The object of a stored image. *)
Definition site1 : S3Object :=
  mkObject png "image/jpeg" "max-age=315360000" (mkDate 2035 1 1).

(** A world in which the names in [names] are taken. *)
Definition world_with (names : list string) : World :=
  mkWorld (list_to_map ((fun n => (posix_join "shots" n, site1)) <$> names)) ∅ [].

Definition request (params : list (string * string)) : Request := list_to_map params.

End Reference.


(** ** Properties *)

Import WebshotAPI.

Section Runs.
Context `{node : Node} `{out : Outside}.

Lemma bind_run {A B} (m : M A) (k : A -> M B) w : bind m k w = k (m w).1 (m w).2.
Proof. unfold bind. destruct (m w); reflexivity. Qed.

Lemma record_log e w : log (record e w) = log w ++ [e].
Proof. reflexivity. Qed.

Lemma renderer_calls_app l1 l2 :
  renderer_calls (l1 ++ l2) = renderer_calls l1 ++ renderer_calls l2.
Proof. apply omap_app. Qed.

Lemma uploads_app l1 l2 : uploads (l1 ++ l2) = uploads l1 ++ uploads l2.
Proof. apply omap_app. Qed.

(** *** The existence check *)

(** The check leaves bucket and disk alone and logs one lookup. *)
Lemma checkFileExists_world name w :
  (checkFileExists name w).2 = record (EvGetObject AWS_S3_BUCKET (getS3Key name)) w.
Proof.
  unfold checkFileExists, bind, s3_getObject, ret.
  destruct (getObject_fault w _) as [e|]; [|destruct (bucket w !! _)]; simpl;
    repeat case_match; reflexivity.
Qed.

Lemma checkFileExists_found name w o :
  getObject_fault w (getS3Key name) = None ->
  bucket w !! getS3Key name = Some o ->
  (checkFileExists name w).1 = inr true.
Proof.
  intros Hf Hb. unfold checkFileExists, bind, s3_getObject, ret.
  rewrite Hf, Hb. reflexivity.
Qed.

Lemma checkFileExists_missing name w :
  getObject_fault w (getS3Key name) = None ->
  bucket w !! getS3Key name = None ->
  (checkFileExists name w).1 = inr false.
Proof.
  intros Hf Hb. unfold checkFileExists, bind, s3_getObject, ret.
  rewrite Hf, Hb. reflexivity.
Qed.

Lemma checkFileExists_fault name w e :
  getObject_fault w (getS3Key name) = Some e ->
  aws_code e <> "NoSuchKey" ->
  (checkFileExists name w).1 = inl (mkErr 500 None (Some (aws_message e))).
Proof.
  intros Hf Hc. unfold checkFileExists, bind, s3_getObject, ret.
  rewrite Hf. apply String.eqb_neq in Hc. rewrite Hc. reflexivity.
Qed.

(** *** The screenshot *)

Lemma generate_log url options w :
  log (generate url options w).2
  = log w ++ [EvWebshot url (temp_path w) (webshotOptions (generate_options options))].
Proof.
  unfold generate, screengrab, bind, webshot, ret.
  destruct (render w url _); reflexivity.
Qed.

Lemma generate_bucket url options w : bucket (generate url options w).2 = bucket w.
Proof.
  unfold generate, screengrab, bind, webshot, ret.
  destruct (render w url _); reflexivity.
Qed.

Lemma generate_ok url options w bytes :
  render w url (webshotOptions (generate_options options)) = Some bytes ->
  generate url options w
  = (inr (temp_path w),
     mkWorld (bucket w) (<[temp_path w := bytes]> (disk w))
       (log w ++ [EvWebshot url (temp_path w) (webshotOptions (generate_options options))])).
Proof.
  intros Hr. unfold generate, screengrab, bind, webshot, ret. rewrite Hr. reflexivity.
Qed.

Lemma generate_failed url options w :
  render w url (webshotOptions (generate_options options)) = None ->
  generate url options w
  = (inl (mkErr 500 (Some "Unable to take a screenshot") None),
     record (EvWebshot url (temp_path w) (webshotOptions (generate_options options))) w).
Proof.
  intros Hr. unfold generate, screengrab, bind, webshot, ret. rewrite Hr. reflexivity.
Qed.

(** *** [store], step by step *)

Lemma store_taken name url options w :
  (checkFileExists name w).1 = inr true ->
  store name url options w
  = (inl (mkErr 400 (Some "A URL by that name already exists") None),
     record (EvGetObject AWS_S3_BUCKET (getS3Key name)) w).
Proof.
  intros Hc. unfold store. rewrite bind_run, Hc, checkFileExists_world. reflexivity.
Qed.

Lemma store_check_failed name url options w err :
  (checkFileExists name w).1 = inl err ->
  store name url options w
  = (inl err, record (EvGetObject AWS_S3_BUCKET (getS3Key name)) w).
Proof.
  intros Hc. unfold store. rewrite bind_run, Hc, checkFileExists_world. reflexivity.
Qed.

(** A lookup the storage service fails is reported with status 500 and the
    service's message; nothing is rendered or uploaded. *)
Lemma store_storage_error name url options w e :
  getObject_fault w (getS3Key name) = Some e ->
  aws_code e <> "NoSuchKey" ->
  store name url options w
  = (inl (mkErr 500 None (Some (aws_message e))),
     record (EvGetObject AWS_S3_BUCKET (getS3Key name)) w).
Proof.
  intros Hf Hc. apply store_check_failed, checkFileExists_fault; assumption.
Qed.

Lemma store_render_failed name url options w :
  (checkFileExists name w).1 = inr false ->
  render (checkFileExists name w).2 url (webshotOptions (generate_options options)) = None ->
  store name url options w
  = (inl (mkErr 500 (Some "Unable to take a screenshot") None),
     (generate url options (checkFileExists name w).2).2).
Proof.
  intros Hc Hr. unfold store. rewrite bind_run, Hc, bind_run.
  rewrite (generate_failed _ _ _ Hr). reflexivity.
Qed.

Lemma store_rendered name url options w bytes :
  (checkFileExists name w).1 = inr false ->
  render (checkFileExists name w).2 url (webshotOptions (generate_options options))
  = Some bytes ->
  let w1 := (checkFileExists name w).2 in
  let w2 := (generate url options w1).2 in
  let w3 := (s3_upload (store_upload name bytes) w2).2 in
  store name url options w
  = (if upload_fault w2 (store_upload name bytes) then inl upload_failed else inr tt,
     (fs_unlink (temp_path w1) w3).2).
Proof.
  intros Hc Hr w1 w2 w3. unfold store. rewrite bind_run, Hc, bind_run.
  fold w1 in Hr |- *. subst w3 w2.
  rewrite (generate_ok _ _ _ _ Hr). cbn [fst snd].
  rewrite bind_run. unfold fs_createReadStream at 1 2. cbn [fst snd disk].
  rewrite lookup_insert_eq. fold (store_upload name bytes).
  rewrite !bind_run.
  unfold s3_upload at 1. cbn [Body store_upload].
  destruct (upload_fault _ _); reflexivity.
Qed.

Lemma store_rendered_log name url options w bytes :
  (checkFileExists name w).1 = inr false ->
  render (checkFileExists name w).2 url (webshotOptions (generate_options options))
  = Some bytes ->
  log (store name url options w).2
  = log w ++ [EvGetObject AWS_S3_BUCKET (getS3Key name);
              EvWebshot url (temp_path (checkFileExists name w).2)
                (webshotOptions (generate_options options));
              EvUpload (store_upload name bytes);
              EvUnlink (temp_path (checkFileExists name w).2)].
Proof.
  intros Hc Hr. rewrite (store_rendered name url options w bytes Hc Hr). cbn [snd].
  unfold fs_unlink, s3_upload. cbn [Body store_upload].
  destruct (upload_fault _ _), (unlink_fault _ _); cbn [snd log record];
    rewrite generate_log, !checkFileExists_world, record_log, <- !app_assoc;
    reflexivity.
Qed.

End Runs.

Section Store.
Context `{node : Node} `{out : Outside}.

(** C1. A [store] under a name that is taken (the lookup of
    [getS3Key name] answers with the object) calls back with the error
    [{code: 400, msg: 'A URL by that name already exists'}]; it makes one
    call, the lookup: the Renderer is not invoked, nothing is uploaded, and
    bucket and disk are as they were. *)
Theorem store_name_in_use name url options w o :
  bucket w !! getS3Key name = Some o ->
  getObject_fault w (getS3Key name) = None ->
  (store name url options w).1
  = inl (mkErr 400 (Some "A URL by that name already exists") None)
  /\ log (store name url options w).2
     = log w ++ [EvGetObject AWS_S3_BUCKET (getS3Key name)]
  /\ renderer_calls (log (store name url options w).2) = renderer_calls (log w)
  /\ uploads (log (store name url options w).2) = uploads (log w)
  /\ bucket (store name url options w).2 = bucket w
  /\ bucket (store name url options w).2 !! getS3Key name = Some o
  /\ disk (store name url options w).2 = disk w.
Proof.
  intros Hb Hf.
  rewrite (store_taken name url options w (checkFileExists_found _ _ _ Hf Hb)).
  cbn [fst snd]. rewrite record_log, renderer_calls_app, uploads_app.
  cbn. rewrite !app_nil_r. repeat split; assumption || reflexivity.
Qed.

(** C6. When the name is free and the screenshot succeeds, [store] makes
    exactly one upload: under the key [path.join(AWS_S3_DIRECTORY, name)],
    of the rendered bytes whatever they are, as [image/jpeg], with
    [max-age] ten years of seconds and [Expires] the fixed date
    [new Date(2035, 1, 1)]; if the upload does not fail the bucket holds the
    bytes under that key with that content type. *)
Theorem store_upload_parameters name url options w bytes :
  let w1 := (checkFileExists name w).2 in
  let w2 := (generate url options w1).2 in
  let w' := (store name url options w).2 in
  (checkFileExists name w).1 = inr false ->
  render w1 url (webshotOptions (generate_options options)) = Some bytes ->
  exists p,
    uploads (log w') = uploads (log w) ++ [p]
    /\ Key p = path_join AWS_S3_DIRECTORY name
    /\ ContentType p = "image/jpeg"
    /\ CacheControl p = "max-age=" +:+ pretty (10 * 365 * 24 * 60 * 60)%N
    /\ Expires p = mkDate 2035 1 1
    /\ Bucket p = AWS_S3_BUCKET
    /\ Body p = Some bytes
    /\ (upload_fault w2 p = false ->
        bucket w' !! path_join AWS_S3_DIRECTORY name
        = Some (mkObject bytes "image/jpeg" "max-age=315360000" (mkDate 2035 1 1))).
Proof.
  intros w1 w2 w' Hc Hr. exists (store_upload name bytes).
  subst w'. rewrite (store_rendered name url options w bytes Hc Hr).
  fold w1 w2. cbn [snd].
  assert (Hlog2 : log w2 = log w ++ [EvGetObject AWS_S3_BUCKET (getS3Key name);
            EvWebshot url (temp_path w1) (webshotOptions (generate_options options))]).
  { subst w2. rewrite generate_log. subst w1. rewrite checkFileExists_world, record_log.
    rewrite <- app_assoc. reflexivity. }
  assert (Hb2 : bucket w2 = bucket w).
  { subst w2. rewrite generate_bucket. subst w1. rewrite checkFileExists_world.
    reflexivity. }
  repeat split.
  - unfold fs_unlink, s3_upload. cbn [Body store_upload].
    destruct (upload_fault w2 _), (unlink_fault _ _); cbn [snd log record];
      rewrite Hlog2, !uploads_app; cbn; rewrite !app_nil_r; reflexivity.
  - intros Hu. unfold fs_unlink, s3_upload. cbn [Body store_upload]. rewrite Hu.
    destruct (unlink_fault _ _); cbn [snd bucket record];
      apply lookup_insert_eq.
Qed.

(** C7. When the name is free and the screenshot succeeds, [store] uploads
    and then unlinks the local file, whatever the upload's outcome: the
    calls are the lookup, the screenshot, the upload and the unlink, in this
    order.  The result depends on the upload alone: the error
    [{code: 500, message: 'Unable to upload ...'}] when it fails, success
    otherwise, whether or not the unlink fails.  An unlink that does not
    fail leaves no file at the path. *)
Theorem store_unlinks_after_upload name url options w bytes :
  let w1 := (checkFileExists name w).2 in
  let w2 := (generate url options w1).2 in
  let p := store_upload name bytes in
  let w3 := (s3_upload p w2).2 in
  let imagePath := temp_path w1 in
  let w' := (store name url options w).2 in
  (checkFileExists name w).1 = inr false ->
  render w1 url (webshotOptions (generate_options options)) = Some bytes ->
  log w' = log w ++ [EvGetObject AWS_S3_BUCKET (getS3Key name);
                     EvWebshot url imagePath (webshotOptions (generate_options options));
                     EvUpload p;
                     EvUnlink imagePath]
  /\ (store name url options w).1
     = (if upload_fault w2 p
        then inl (mkErr 500 None
                    (Some "Unable to upload the rendered image of the website to S3"))
        else inr tt)
  /\ (unlink_fault w3 imagePath = false -> disk w' !! imagePath = None)
  /\ (unlink_fault w3 imagePath = true -> disk w' !! imagePath = Some bytes).
Proof.
  intros w1 w2 p w3 imagePath w' Hc Hr.
  split; [exact (store_rendered_log name url options w bytes Hc Hr)|].
  unfold w'. rewrite (store_rendered name url options w bytes Hc Hr).
  fold w1 w2 p w3 imagePath. cbn [fst snd].
  assert (Hdisk3 : disk w3 !! imagePath = Some bytes).
  { assert (disk w2 !! imagePath = Some bytes) as Hd.
    { unfold w2. rewrite (generate_ok _ _ _ _ Hr). apply lookup_insert_eq. }
    unfold w3, s3_upload. cbn [Body p store_upload].
    destruct (upload_fault w2 _); exact Hd. }
  split; [reflexivity|split].
  - intros Hu. unfold fs_unlink. rewrite Hu. apply lookup_delete_eq.
  - intros Hu. unfold fs_unlink. rewrite Hu. exact Hdisk3.
Qed.

End Store.

(** ** The options the Renderer is given *)

Section RendererOptions.
Context `{node : Node} `{out : Outside}.

(** [generate] invokes the Renderer once. *)
Lemma generate_renderer_calls url options w :
  renderer_calls (log (generate url options w).2)
  = renderer_calls (log w)
    ++ [(url, temp_path w, webshotOptions (generate_options options))].
Proof. rewrite generate_log, renderer_calls_app. reflexivity. Qed.

(** [store] invokes the Renderer at most once, when the name is free, and
    through [generate]. *)
Lemma store_renderer_calls name url options w :
  renderer_calls (log (store name url options w).2)
  = renderer_calls (log w)
    ++ match (checkFileExists name w).1 with
       | inr false =>
           [(url, temp_path (checkFileExists name w).2,
             webshotOptions (generate_options options))]
       | _ => []
       end.
Proof.
  destruct (checkFileExists name w).1 as [err|[|]] eqn:Hc.
  - rewrite (store_check_failed _ url options _ _ Hc). cbn [snd].
    rewrite record_log, renderer_calls_app. reflexivity.
  - rewrite (store_taken _ url options _ Hc). cbn [snd].
    rewrite record_log, renderer_calls_app. reflexivity.
  - destruct (render (checkFileExists name w).2 url
                (webshotOptions (generate_options options))) as [bytes|] eqn:Hr.
    + rewrite (store_rendered_log name url options w bytes Hc Hr), renderer_calls_app.
      reflexivity.
    + rewrite (store_render_failed _ _ _ _ Hc Hr). cbn [snd].
      rewrite generate_log, checkFileExists_world, record_log, !renderer_calls_app.
      cbn. rewrite app_nil_r. reflexivity.
Qed.

(** Every invocation [store] makes has the options [generate] computes. *)
Lemma store_renders_through_generate name url options w :
  exists calls,
    renderer_calls (log (store name url options w).2) = renderer_calls (log w) ++ calls
    /\ forall c, c ∈ calls -> c.2 = webshotOptions (generate_options options).
Proof.
  rewrite store_renderer_calls. eexists; split; [reflexivity|].
  intros c Hin. destruct (checkFileExists name w).1 as [err|[|]].
  - inversion Hin.
  - inversion Hin.
  - apply list_elem_of_singleton in Hin. subst c. reflexivity.
Qed.

(** [store] reads [options] through [generate_options] only. *)
Lemma store_options_ext name url options1 options2 w :
  generate_options options1 = generate_options options2 ->
  store name url options1 w = store name url options2 w.
Proof. intros Heq. unfold store, generate. rewrite Heq. reflexivity. Qed.

Lemma js_or_falsy v d : falsy v = true -> js_or v d = d.
Proof. unfold falsy, js_or. destruct (truthy v); [discriminate | reflexivity]. Qed.

(** The fields of the options after [generate]'s assignments. *)
Lemma generate_options_fields o :
  let o' := generate_options (Some o) in
  width o' = js_or (width o) (VNum 1024)
  /\ height o' = js_or (height o) (VNum 768)
  /\ delay o' = (if js_gt (js_or (delay o) (VNum 0)) 10000 then VNum 10000
                 else js_or (delay o) (VNum 0))
  /\ userAgent o' = js_or (userAgent o) (VStr "")
  /\ full o' = full o.
Proof.
  unfold generate_options. cbn [width height delay userAgent full].
  destruct (js_gt _ _); cbn; auto.
Qed.

Lemma generate_options_without_falsy o :
  generate_options (Some (without_falsy o)) = generate_options (Some o).
Proof.
  unfold generate_options, without_falsy, js_or.
  cbn [width height delay userAgent full].
  destruct (truthy (width o)) eqn:Hw, (truthy (height o)) eqn:Hh,
    (truthy (delay o)) eqn:Hd, (truthy (userAgent o)) eqn:Hu;
    cbn [truthy]; rewrite ?Hw, ?Hh, ?Hd, ?Hu; reflexivity.
Qed.

End RendererOptions.

Section RendererOptionsClaims.
Context `{node : Node} `{out : Outside}.

(** C4. [generate] invokes the Renderer once, and [store] invokes it only
    through [generate], with the same options: when [width], [height],
    [userAgent] or [delay] is absent from [options], the Renderer is given
    1024, 768, the empty string and 0 respectively. *)
Theorem absent_options_get_defaults url options w :
  exists wo,
    renderer_calls (log (generate url options w).2)
    = renderer_calls (log w) ++ [(url, temp_path w, wo)]
    /\ (forall name, exists calls,
          renderer_calls (log (store name url options w).2)
          = renderer_calls (log w) ++ calls
          /\ forall c, c ∈ calls -> c.2 = wo)
    /\ (absent width options -> windowSize_width wo = VNum 1024)
    /\ (absent height options -> windowSize_height wo = VNum 768)
    /\ (absent userAgent options -> ws_userAgent wo = VStr "")
    /\ (absent delay options -> renderDelay wo = VNum 0).
Proof.
  exists (webshotOptions (generate_options options)).
  split; [apply generate_renderer_calls|].
  split; [intros name; apply store_renders_through_generate|].
  destruct options as [o|]; cbn [absent].
  - destruct (generate_options_fields o) as (Hw & Hh & Hd & Hu & _).
    unfold webshotOptions; cbn [windowSize_width windowSize_height ws_userAgent renderDelay].
    rewrite Hw, Hh, Hd, Hu.
    repeat split; intros ->; reflexivity.
  - repeat split; reflexivity.
Qed.

(** C10. An option that is present but falsy is read as if it were absent:
    [generate] and [store] run as they do on the [options] without its
    falsy properties, and the Renderer is given 1024 for a falsy [width]
    (so for 0), 768 for a falsy [height], 0 for a falsy [delay] and the
    empty string for a falsy [userAgent]. *)
Theorem falsy_options_read_as_absent url o w :
  generate url (Some o) w = generate url (Some (without_falsy o)) w
  /\ (forall name, store name url (Some o) w = store name url (Some (without_falsy o)) w)
  /\ exists wo,
       renderer_calls (log (generate url (Some o) w).2)
       = renderer_calls (log w) ++ [(url, temp_path w, wo)]
       /\ (falsy (width o) = true -> windowSize_width wo = VNum 1024)
       /\ (falsy (height o) = true -> windowSize_height wo = VNum 768)
       /\ (falsy (delay o) = true -> renderDelay wo = VNum 0)
       /\ (falsy (userAgent o) = true -> ws_userAgent wo = VStr "").
Proof.
  split; [unfold generate; rewrite generate_options_without_falsy; reflexivity|].
  split.
  { intros name. apply store_options_ext. symmetry. apply generate_options_without_falsy. }
  exists (webshotOptions (generate_options (Some o))).
  split; [apply generate_renderer_calls|].
  destruct (generate_options_fields o) as (Hw & Hh & Hd & Hu & _).
  unfold webshotOptions; cbn [windowSize_width windowSize_height ws_userAgent renderDelay].
  rewrite Hw, Hh, Hd, Hu.
  repeat split; intros Hf; rewrite (js_or_falsy _ _ Hf); reflexivity.
Qed.

(** C2, as the code has it.  With [delay] an integer or absent, the
    Renderer is given a delay of at most 10000: 0 when [delay] is absent,
    10000 when the given delay exceeds 10000, and the given delay itself
    otherwise, a negative one included. *)
Theorem delay_clamped_from_above url options w :
  exists wo,
    renderer_calls (log (generate url options w).2)
    = renderer_calls (log w) ++ [(url, temp_path w, wo)]
    /\ (forall name, exists calls,
          renderer_calls (log (store name url options w).2)
          = renderer_calls (log w) ++ calls
          /\ forall c, c ∈ calls -> c.2 = wo)
    /\ (absent delay options -> renderDelay wo = VNum 0)
    /\ (forall o d, options = Some o -> delay o = VNum d ->
        renderDelay wo = VNum (Z.min d 10000)).
Proof.
  exists (webshotOptions (generate_options options)).
  split; [apply generate_renderer_calls|].
  split; [intros name; apply store_renders_through_generate|].
  split.
  - destruct options as [o|]; cbn [absent]; [|reflexivity].
    destruct (generate_options_fields o) as (_ & _ & Hd & _).
    unfold webshotOptions; cbn [renderDelay]. rewrite Hd. intros ->. reflexivity.
  - intros o d -> Hd.
    destruct (generate_options_fields o) as (_ & _ & Hd' & _).
    unfold webshotOptions; cbn [renderDelay]. rewrite Hd', Hd.
    unfold js_or; cbn [truthy].
    destruct (Z.eqb_spec d 0) as [->|Hne]; cbn [negb js_gt].
    + reflexivity.
    + destruct (Z.ltb_spec 10000 d); f_equal; lia.
Qed.

End RendererOptionsClaims.

(** ** The request handlers *)

Section HandlerClaims.
Context `{node : Node} `{out : Outside}.

(** The handlers' three checks of [url]. *)
Lemma url_checks url :
  has_scheme_and_host url = false ->
  str_falsy url = true
  \/ (exists u, url = Some u /\ str_falsy url = false
                /\ (str_falsy (protocol (Url_parse u)) = true
                    \/ str_falsy (protocol (Url_parse u)) = false
                       /\ str_falsy (hostname (Url_parse u)) = true)).
Proof.
  destruct url as [u|]; cbn [has_scheme_and_host str_falsy]; [|left; reflexivity].
  destruct (String.eqb u ""); [left; reflexivity|]. cbn [negb andb].
  intros Hv. right. exists u. split; [reflexivity|]. split; [reflexivity|].
  destruct (str_falsy (protocol (Url_parse u))); [left; reflexivity|].
  destruct (str_falsy (hostname (Url_parse u))); [right; split; reflexivity|discriminate].
Qed.

(** C8. A [generate] request whose [url] is missing, empty, or parsed
    without a protocol or without a hostname is answered with status 400
    and a message; the world is left as it was, so the Renderer is not
    invoked. *)
Theorem generate_rejects_invalid_url req w :
  has_scheme_and_host (req !! "url") = false ->
  (exists m, (Routes.generate req w).1 = Send 400 (BodyText (Some m)))
  /\ (Routes.generate req w).2 = w
  /\ renderer_calls (log (Routes.generate req w).2) = renderer_calls (log w).
Proof.
  intros Hu. unfold Routes.generate. cbv zeta.
  destruct (url_checks _ Hu) as [-> | (u & Heq & -> & [Hp | [Hp Hh]])].
  - unfold ret; cbn [fst snd]. split; [eexists; reflexivity | split; reflexivity].
  - rewrite Heq; cbn [default from_option id]. rewrite Hp.
    unfold ret; cbn [fst snd]. split; [eexists; reflexivity | split; reflexivity].
  - rewrite Heq; cbn [default from_option id]. rewrite Hp, Hh.
    unfold ret; cbn [fst snd]. split; [eexists; reflexivity | split; reflexivity].
Qed.

(** C5, as the code has it.  The [store] handler validates [url] before
    the API looks the name up: a request with a name and a [url] that is
    parsed without a protocol or without a hostname is answered with
    status 400 and the message of the URL check, whatever the bucket
    holds; the world is left as it was, so storage is not consulted. *)
Theorem store_validates_url_before_lookup req w name url :
  req !! "name" = Some name -> name <> "" ->
  req !! "url" = Some url -> url <> "" ->
  has_scheme_and_host (Some url) = false ->
  Routes.store req w
  = (Send 400 (BodyText (Some (if str_falsy (protocol (Url_parse url))
                               then "Invalid url, missing protocol"
                               else "Invalid url, missing hostname"))), w).
Proof.
  intros Hn Hne Hu Hue Hv. unfold Routes.store. cbv zeta. rewrite Hn, Hu.
  apply String.eqb_neq in Hne, Hue. cbn [str_falsy default from_option id]. rewrite Hne, Hue.
  destruct (url_checks _ Hv) as [Hf | (u & Heq & _ & [Hp | [Hp Hh]])].
  - cbn [str_falsy] in Hf. congruence.
  - injection Heq as <-. rewrite Hp. reflexivity.
  - injection Heq as <-. rewrite Hp, Hh. reflexivity.
Qed.

(** C3, as the code has it.  [getStoredImageUrl] does not validate [name]:
    the empty name is looked up like any other.  When the lookup of
    [getS3Key name] is answered, the call fails with
    [{code: 404, msg: 'A URL by that name does not exist'}] if the bucket
    has no object under the key, and otherwise succeeds with the signed
    [getObject] URL of that key; the handler answers 404 or redirects
    accordingly.  The bucket is left as it was. *)
Theorem getStoredImageUrl_by_lookup name w :
  let w1 := record (EvGetObject AWS_S3_BUCKET (getS3Key name)) w in
  getObject_fault w (getS3Key name) = None ->
  (getStoredImageUrl name w).1
  = match bucket w !! getS3Key name with
    | None => inl (mkErr 404 (Some "A URL by that name does not exist") None)
    | Some _ => inr (getSignedUrl w1 "getObject" AWS_S3_BUCKET (getS3Key name))
    end
  /\ bucket (getStoredImageUrl name w).2 = bucket w
  /\ forall req, req !! "name" = Some name ->
       (Routes.getStoredImage req w).1
       = match bucket w !! getS3Key name with
         | None => Send 404 (BodyText None)
         | Some _ => Redirect (getSignedUrl w1 "getObject" AWS_S3_BUCKET (getS3Key name))
         end.
Proof.
  intros w1 Hf.
  assert (Hrun : getStoredImageUrl name w
                 = match bucket w !! getS3Key name with
                   | None => (inl (mkErr 404 (Some "A URL by that name does not exist") None), w1)
                   | Some _ => (inr (getSignedUrl w1 "getObject" AWS_S3_BUCKET (getS3Key name)),
                                record (EvGetSignedUrl "getObject" AWS_S3_BUCKET (getS3Key name)) w1)
                   end).
  { unfold getStoredImageUrl. rewrite bind_run, checkFileExists_world. fold w1.
    destruct (bucket w !! getS3Key name) as [o|] eqn:Hb.
    - rewrite (checkFileExists_found _ _ _ Hf Hb). reflexivity.
    - rewrite (checkFileExists_missing _ _ Hf Hb). reflexivity. }
  split; [|split].
  - rewrite Hrun. destruct (bucket w !! getS3Key name); reflexivity.
  - rewrite Hrun. destruct (bucket w !! getS3Key name); reflexivity.
  - intros req Hn. unfold Routes.getStoredImage. rewrite Hn, bind_run, Hrun.
    destruct (bucket w !! getS3Key name); reflexivity.
Qed.

End HandlerClaims.

(** ** The name of the download *)

Lemma append_cons c (a b : string) : String c a +:+ b = String c (a +:+ b).
Proof. reflexivity. Qed.

Lemma replace_nonword_app a b :
  replace_nonword (a +:+ b) = replace_nonword a +:+ replace_nonword b.
Proof.
  induction a as [|c a IH]; [reflexivity|].
  rewrite append_cons. cbn [replace_nonword]. rewrite append_cons. f_equal. exact IH.
Qed.

(** [replace_nonword] works character by character. *)
Lemma replace_nonword_chars s :
  list_ascii_of_string (replace_nonword s)
  = (fun c => if is_word_char c then c else "_"%char) <$> list_ascii_of_string s.
Proof.
  induction s as [|c s IH]; [reflexivity|].
  cbn [replace_nonword list_ascii_of_string fmap list_fmap]. f_equal. exact IH.
Qed.

Lemma append_assoc (a b c : string) : (a +:+ b) +:+ c = a +:+ (b +:+ c).
Proof.
  induction a as [|x a IH]; [reflexivity|].
  rewrite !append_cons. f_equal. exact IH.
Qed.

(** [replace_final_underscore] removes one underscore at the end, if there is
    one. *)
Lemma replace_final_underscore_spec s :
  if ends_with_underscore s
  then s = replace_final_underscore s +:+ "_"
  else replace_final_underscore s = s.
Proof.
  induction s as [|c s IH]; [reflexivity|].
  destruct s as [|c' s'].
  - cbn. destruct (Ascii.eqb_spec c "_"); [subst|]; reflexivity.
  - change (ends_with_underscore (String c (String c' s')))
      with (ends_with_underscore (String c' s')).
    change (replace_final_underscore (String c (String c' s')))
      with (String c (replace_final_underscore (String c' s'))).
    destruct (ends_with_underscore (String c' s')).
    + rewrite append_cons, <- IH. reflexivity.
    + rewrite IH. reflexivity.
Qed.

Lemma trim_no_underscore s :
  ends_with_underscore s = false -> trim_trailing_underscores s = s.
Proof.
  induction s as [|c s IH]; [reflexivity|].
  destruct s as [|c' s'].
  - cbn. intros ->. reflexivity.
  - intros H.
    change (ends_with_underscore (String c (String c' s')))
      with (ends_with_underscore (String c' s')) in H.
    cbn [trim_trailing_underscores] in *. rewrite (IH H). reflexivity.
Qed.

Lemma trim_app_underscore s :
  trim_trailing_underscores (s +:+ "_") = trim_trailing_underscores s.
Proof.
  induction s as [|c s IH]; [reflexivity|].
  rewrite append_cons. cbn [trim_trailing_underscores]. rewrite IH. reflexivity.
Qed.

(** C9, as the code has it.  The name [generate] derives is the host with
    every non-word character replaced by an underscore, followed by the path
    with every non-word character replaced by an underscore and one final
    underscore, if there is one, removed, followed by [.png].  It is the
    name of the specification whenever it has no underscore before [.png].
    For [http://okfn.org/about/how-we-can-help-you/] the name is
    [okfn_org_about_how_we_can_help_you.png], and this is the name the handler
    offers the download under. *)
Theorem imageName_derivation proto host path :
  let stem := replace_nonword host +:+ replace_final_underscore (replace_nonword path) in
  imageName (mkUrl proto (Some host) (Some path)) = Some (stem +:+ ".png")
  /\ (ends_with_underscore stem = false ->
      imageName (mkUrl proto (Some host) (Some path)) = Some (spec_displayName host path))
  /\ imageName (Reference.legacy_parse "http://okfn.org/about/how-we-can-help-you/")
     = Some "okfn_org_about_how_we_can_help_you.png"
  /\ (@Routes.generate Reference.node Reference.all_well
        (Reference.request [("url", "http://okfn.org/about/how-we-can-help-you/")])
        Reference.empty_world).1
     = Download "/tmp/0.png" (Some Reference.png) "okfn_org_about_how_we_can_help_you.png".
Proof.
  intros stem.
  assert (Hname : imageName (mkUrl proto (Some host) (Some path)) = Some (stem +:+ ".png")).
  { unfold imageName; cbn [hostname pathname]. fold stem.
    destruct (String.eqb_spec (replace_final_underscore (replace_nonword path)) "") as [He|_];
      cbn [negb]; [|reflexivity].
    unfold stem. rewrite He. clear. f_equal. f_equal.
    induction (replace_nonword host) as [|c s IH]; [reflexivity|].
    rewrite append_cons, <- IH. reflexivity. }
  split; [exact Hname|]. split; [|split; vm_compute; reflexivity].
  intros Hend. rewrite Hname. f_equal. unfold spec_displayName. f_equal.
  rewrite replace_nonword_app.
  pose proof (replace_final_underscore_spec (replace_nonword path)) as Hp.
  destruct (ends_with_underscore (replace_nonword path)).
  - rewrite Hp at 1. rewrite <- append_assoc, trim_app_underscore.
    fold stem. symmetry. apply trim_no_underscore, Hend.
  - unfold stem in *. rewrite Hp in *. symmetry. apply trim_no_underscore, Hend.
Qed.

(** *** The theorems on concrete runs *)

Section ConcreteRuns.
Import Reference.

(** "site1" is taken: the second [store] is refused. *)
Lemma store_name_in_use_witness :
  bucket (world_with ["site1"]) !! "shots/site1" = Some site1
  /\ (@store node all_well "site1" "http://example.com/about/" None
        (world_with ["site1"])).1
     = inl (mkErr 400 (Some "A URL by that name already exists") None)
  /\ bucket (@store node all_well "site1" "http://example.com/about/" None
               (world_with ["site1"])).2 !! "shots/site1" = Some site1.
Proof.
  assert (H1 : bucket (world_with ["site1"]) !! @getS3Key node "site1" = Some site1)
    by (vm_compute; reflexivity).
  assert (H2 : @getObject_fault all_well (world_with ["site1"]) (@getS3Key node "site1")
               = None) by reflexivity.
  split; [exact H1|].
  destruct (@store_name_in_use node all_well "site1" "http://example.com/about/" None
              (world_with ["site1"]) site1 H1 H2) as (Hr & _ & _ & _ & _ & Hb & _).
  split; [exact Hr | exact Hb].
Defined.

(** "site1" is free and the page renders: the upload goes to "shots/site1". *)
Lemma store_upload_parameters_witness :
  exists p,
    uploads (log (@store node all_well "site1" "http://example.com/about/" None
                    empty_world).2) = [p]
    /\ Key p = "shots/site1" /\ ContentType p = "image/jpeg".
Proof.
  destruct (@store_upload_parameters node all_well "site1" "http://example.com/about/"
              None empty_world png) as (p & Hu & Hk & Hc & _).
  - vm_compute; reflexivity.
  - reflexivity.
  - exists p. split; [exact Hu | split; [exact Hk | exact Hc]].
Defined.

(** The upload and the unlink both fail: the caller gets the upload error,
    and the file stays. *)
Lemma store_unlinks_after_upload_witness :
  (@store node (outside false false true true) "site1" "http://example.com/about/" None
     empty_world).1
  = inl (mkErr 500 None (Some "Unable to upload the rendered image of the website to S3"))
  /\ unlinks (log (@store node (outside false false true true) "site1"
                     "http://example.com/about/" None empty_world).2) = ["/tmp/1.png"].
Proof.
  destruct (@store_unlinks_after_upload node (outside false false true true) "site1"
              "http://example.com/about/" None empty_world png) as (Hl & Hr & _ & _).
  - vm_compute; reflexivity.
  - reflexivity.
  - split; [exact Hr | rewrite Hl; reflexivity].
Defined.

(** The end-to-end scenario: width 800 and height 600 are given, the
    delay and the user agent are not. *)
Lemma absent_options_get_defaults_witness :
  exists wo,
    renderer_calls
      (log (@generate node all_well "http://example.com/about/"
              (Some (mkOptions (VNum 800) (VNum 600) VUndefined VUndefined VUndefined))
              empty_world).2)
    = [("http://example.com/about/", "/tmp/0.png", wo)]
    /\ windowSize_width wo = VNum 800 /\ windowSize_height wo = VNum 600
    /\ ws_userAgent wo = VStr "" /\ renderDelay wo = VNum 0.
Proof.
  destruct (@absent_options_get_defaults node all_well "http://example.com/about/"
              (Some (mkOptions (VNum 800) (VNum 600) VUndefined VUndefined VUndefined))
              empty_world) as (wo & Hcalls & _ & _ & _ & Hua & Hd).
  exists wo. split; [exact Hcalls|].
  pose proof (Hua eq_refl) as Hua'. pose proof (Hd eq_refl) as Hd'.
  vm_compute in Hcalls. injection Hcalls as <-.
  split; [reflexivity|]. split; [reflexivity|]. split; [exact Hua' | exact Hd'].
Defined.

(** Width 0, height 0, delay 0 and an empty user agent. *)
Lemma falsy_options_read_as_absent_witness :
  exists wo,
    renderer_calls
      (log (@generate node all_well "http://example.com/about/"
              (Some (mkOptions (VNum 0) (VNum 0) (VNum 0) (VStr "") VUndefined))
              empty_world).2)
    = [("http://example.com/about/", "/tmp/0.png", wo)]
    /\ windowSize_width wo = VNum 1024 /\ windowSize_height wo = VNum 768
    /\ renderDelay wo = VNum 0 /\ ws_userAgent wo = VStr "".
Proof.
  destruct (@falsy_options_read_as_absent node all_well "http://example.com/about/"
              (mkOptions (VNum 0) (VNum 0) (VNum 0) (VStr "") VUndefined)
              empty_world) as (_ & _ & wo & Hcalls & Hw & Hh & Hd & Hu).
  exists wo. split; [exact Hcalls|].
  repeat split; [apply Hw | apply Hh | apply Hd | apply Hu]; reflexivity.
Defined.

(** A delay of 20000 is cut to 10000. *)
Lemma delay_clamped_from_above_witness :
  exists wo,
    renderer_calls
      (log (@generate node all_well "http://example.com/about/"
              (Some (mkOptions VUndefined VUndefined (VNum 20000) VUndefined VUndefined))
              empty_world).2)
    = [("http://example.com/about/", "/tmp/0.png", wo)]
    /\ renderDelay wo = VNum 10000.
Proof.
  destruct (@delay_clamped_from_above node all_well "http://example.com/about/"
              (Some (mkOptions VUndefined VUndefined (VNum 20000) VUndefined VUndefined))
              empty_world) as (wo & Hcalls & _ & _ & Hd).
  exists wo. split; [exact Hcalls|].
  exact (Hd _ 20000 eq_refl eq_refl).
Defined.

(** C2 fails on the code: a delay of -5 is handed to the Renderer as it
    is. *)
Lemma negative_delay_reaches_renderer :
  let wo := {| renderDelay := VNum (-5);
               windowSize_width := VNum 1024;
               windowSize_height := VNum 768;
               shotSize_width := "window";
               shotSize_height := "window";
               ws_userAgent := VStr "";
               phantomConfig_ignore_ssl_errors := true;
               phantomConfig_ssl_protocol := "any" |} in
  renderer_calls
    (log (@generate node all_well "http://example.com/about/"
            (Some (mkOptions VUndefined VUndefined (VNum (-5)) VUndefined VUndefined))
            empty_world).2)
  = [("http://example.com/about/", "/tmp/0.png", wo)]
  /\ ~ delay_within_bounds wo.
Proof.
  split; [vm_compute; reflexivity|].
  intros (d & Hd & Hb). cbn in Hd. injection Hd as <-. lia.
Qed.

(** "not-a-url" has no protocol. *)
Lemma generate_rejects_invalid_url_witness :
  (@Routes.generate node all_well (request [("url", "not-a-url")]) empty_world).1
  = Send 400 (BodyText (Some "Invalid url, missing protocol"))
  /\ renderer_calls
       (log (@Routes.generate node all_well (request [("url", "not-a-url")])
               empty_world).2) = [].
Proof.
  destruct (@generate_rejects_invalid_url node all_well (request [("url", "not-a-url")])
              empty_world) as (_ & _ & Hcalls).
  - vm_compute; reflexivity.
  - split; [vm_compute; reflexivity | exact Hcalls].
Defined.

(** "site1" is taken and the URL has no protocol: the URL is what the
    answer is about. *)
Lemma store_validates_url_before_lookup_witness :
  @Routes.store node all_well (request [("name", "site1"); ("url", "not-a-url")])
    (world_with ["site1"])
  = (Send 400 (BodyText (Some "Invalid url, missing protocol")), world_with ["site1"]).
Proof.
  apply (@store_validates_url_before_lookup node all_well
           (request [("name", "site1"); ("url", "not-a-url")]) (world_with ["site1"])
           "site1" "not-a-url").
  - vm_compute; reflexivity.
  - discriminate.
  - vm_compute; reflexivity.
  - discriminate.
  - vm_compute; reflexivity.
Defined.

(** C5 fails on the code: the name is taken and the URL has no protocol;
    the answer is the one of the URL check, not the one of the conflict,
    and no call was made to the storage service. *)
Lemma invalid_url_answered_before_conflict :
  bucket (world_with ["site1"]) !! @getS3Key node "site1" = Some site1
  /\ (@Routes.store node all_well (request [("name", "site1"); ("url", "not-a-url")])
        (world_with ["site1"])).1
     = Send 400 (BodyText (Some "Invalid url, missing protocol"))
  /\ (@Routes.store node all_well (request [("name", "site1"); ("url", "not-a-url")])
        (world_with ["site1"])).1
     <> Send 400 (BodyText (Some "A URL by that name already exists"))
  /\ log (@Routes.store node all_well (request [("name", "site1"); ("url", "not-a-url")])
            (world_with ["site1"])).2 = [].
Proof.
  split; [vm_compute; reflexivity|].
  split; [vm_compute; reflexivity|].
  split; [vm_compute; discriminate | vm_compute; reflexivity].
Qed.

(** "site1" is stored: the fetch is redirected to the signed URL. *)
Lemma getStoredImageUrl_by_lookup_witness :
  (@getStoredImageUrl node all_well "site1" (world_with ["site1"])).1
  = inr "https://webshots.s3.amazonaws.com/shots/site1?Signature=x"
  /\ (@Routes.getStoredImage node all_well (request [("name", "site1")])
        (world_with ["site1"])).1
     = Redirect "https://webshots.s3.amazonaws.com/shots/site1?Signature=x".
Proof.
  destruct (@getStoredImageUrl_by_lookup node all_well "site1" (world_with ["site1"]))
    as (Hr & _ & Hh).
  - reflexivity.
  - split.
    + rewrite Hr. vm_compute; reflexivity.
    + rewrite (Hh (request [("name", "site1")])); vm_compute; reflexivity.
Defined.

(** C3 fails on the code: the empty name is not refused.  It is looked up
    under the key of the base directory: the answer is the 404 of an
    unknown name when nothing is stored there, and a redirect when
    something is. *)
Lemma empty_name_is_looked_up :
  (@getStoredImageUrl node all_well "" empty_world).1
  = inl (mkErr 404 (Some "A URL by that name does not exist") None)
  /\ log (@getStoredImageUrl node all_well "" empty_world).2
     = [EvGetObject "webshots" (@getS3Key node "")]
  /\ (@Routes.getStoredImage node all_well (request [("name", "")]) empty_world).1
     = Send 404 (BodyText None)
  /\ (@getStoredImageUrl node all_well "" (world_with [""])).1
     = inr "https://webshots.s3.amazonaws.com/shots?Signature=x".
Proof. repeat split; vm_compute; reflexivity. Qed.

(** The name of the example. *)
Lemma imageName_derivation_witness :
  imageName (mkUrl (Some "http:") (Some "okfn.org") (Some "/about/how-we-can-help-you/"))
  = Some "okfn_org_about_how_we_can_help_you.png"
  /\ spec_displayName "okfn.org" "/about/how-we-can-help-you/"
     = "okfn_org_about_how_we_can_help_you.png".
Proof.
  destruct (imageName_derivation (Some "http:") "okfn.org" "/about/how-we-can-help-you/")
    as (Hn & Hs & _).
  split; [rewrite Hn; vm_compute; reflexivity|].
  apply (inj Some). rewrite <- (Hs eq_refl). vm_compute; reflexivity.
Defined.

(** C9 fails on the code: the path [/a//] ends with two non-word
    characters; one underscore stays before [.png]. *)
Lemma imageName_keeps_an_underscore :
  imageName (legacy_parse "http://example.com/a//") = Some "example_com_a_.png"
  /\ spec_displayName "example.com" "/a//" = "example_com_a.png"
  /\ imageName (legacy_parse "http://example.com/a//")
     <> Some (spec_displayName "example.com" "/a//").
Proof.
  split; [vm_compute; reflexivity|]. split; [vm_compute; reflexivity|].
  vm_compute. discriminate.
Qed.

End ConcreteRuns.

(** ** More of the workflow: the runs of [store], case by case *)

Section StoreCases.
Context `{node : Node} `{out : Outside}.

(** What the check answers, read backwards. *)
Lemma checkFileExists_true_inv name w :
  (checkFileExists name w).1 = inr true ->
  getObject_fault w (getS3Key name) = None /\ is_Some (bucket w !! getS3Key name).
Proof.
  unfold checkFileExists. rewrite bind_run. unfold s3_getObject.
  destruct (getObject_fault w (getS3Key name)) as [e|]; cbn [fst snd].
  - destruct (negb (String.eqb (aws_code e) "NoSuchKey")); discriminate.
  - destruct (bucket w !! getS3Key name) as [o|]; cbn [fst snd aws_code].
    + intros _. split; [reflexivity | eexists; reflexivity].
    + discriminate.
Qed.

Lemma checkFileExists_error_inv name w err :
  (checkFileExists name w).1 = inl err ->
  exists e, getObject_fault w (getS3Key name) = Some e
            /\ aws_code e <> "NoSuchKey"
            /\ err = mkErr 500 None (Some (aws_message e)).
Proof.
  unfold checkFileExists. rewrite bind_run. unfold s3_getObject.
  destruct (getObject_fault w (getS3Key name)) as [e|]; cbn [fst snd].
  - destruct (String.eqb_spec (aws_code e) "NoSuchKey") as [Heq|Hne]; cbn [negb].
    + discriminate.
    + intros [= <-]. exists e. split; [reflexivity | split; [exact Hne | reflexivity]].
  - destruct (bucket w !! getS3Key name) as [o|]; cbn [fst snd aws_code]; discriminate.
Qed.

(** The world after a screenshot that succeeded. *)
Lemma store_rendered_world name url options w bytes :
  (checkFileExists name w).1 = inr false ->
  render (checkFileExists name w).2 url (webshotOptions (generate_options options))
  = Some bytes ->
  let w1 := (checkFileExists name w).2 in
  let w2 := (generate url options w1).2 in
  let w3 := (s3_upload (store_upload name bytes) w2).2 in
  let w' := (store name url options w).2 in
  bucket w'
  = (if upload_fault w2 (store_upload name bytes) then bucket w
     else <[getS3Key name := mkObject bytes "image/jpeg" "max-age=315360000"
                               (mkDate 2035 1 1)]> (bucket w))
  /\ disk w'
     = (if unlink_fault w3 (temp_path w1) then <[temp_path w1 := bytes]> (disk w)
        else delete (temp_path w1) (<[temp_path w1 := bytes]> (disk w))).
Proof.
  intros Hc Hr w1 w2 w3 w'.
  unfold w'. rewrite (store_rendered name url options w bytes Hc Hr).
  fold w1 w2 w3. cbn [snd].
  assert (Hw2 : bucket w2 = bucket w /\ disk w2 = <[temp_path w1 := bytes]> (disk w)).
  { unfold w2. fold w1 in Hr. rewrite (generate_ok _ _ _ _ Hr). cbn [bucket disk].
    unfold w1. rewrite checkFileExists_world. split; reflexivity. }
  destruct Hw2 as [Hb2 Hd2].
  assert (Hw3 : bucket w3
                = (if upload_fault w2 (store_upload name bytes) then bucket w
                   else <[getS3Key name := mkObject bytes "image/jpeg" "max-age=315360000"
                                             (mkDate 2035 1 1)]> (bucket w))
                /\ disk w3 = <[temp_path w1 := bytes]> (disk w)).
  { unfold w3, s3_upload. cbn [Body store_upload].
    destruct (upload_fault w2 _); cbn [snd bucket disk record];
      rewrite ?Hb2, ?Hd2; split; reflexivity. }
  destruct Hw3 as [Hb3 Hd3].
  unfold fs_unlink. destruct (unlink_fault w3 (temp_path w1)); cbn [snd bucket disk record];
    rewrite Hb3, Hd3; split; reflexivity.
Qed.


(** A [store] that succeeded found the name free, rendered, and uploaded. *)
Lemma store_ok_inv name url options w :
  (store name url options w).1 = inr tt ->
  exists bytes,
    (checkFileExists name w).1 = inr false
    /\ render (checkFileExists name w).2 url (webshotOptions (generate_options options))
       = Some bytes
    /\ bucket (store name url options w).2
       = <[getS3Key name := mkObject bytes "image/jpeg" "max-age=315360000"
                              (mkDate 2035 1 1)]> (bucket w).
Proof.
  intros Hok.
  destruct (checkFileExists name w).1 as [err|[|]] eqn:Hc.
  - rewrite (store_check_failed _ url options _ _ Hc) in Hok. discriminate.
  - rewrite (store_taken _ url options _ Hc) in Hok. discriminate.
  - destruct (render (checkFileExists name w).2 url
                (webshotOptions (generate_options options))) as [bytes|] eqn:Hr.
    + exists bytes. split; [reflexivity|]. split; [reflexivity|].
      destruct (store_rendered_world name url options w bytes Hc Hr) as [Hb _].
      rewrite Hb. rewrite (store_rendered name url options w bytes Hc Hr) in Hok.
      cbn [fst] in Hok. destruct (upload_fault _ _); [discriminate | reflexivity].
    + rewrite (store_render_failed _ _ _ _ Hc Hr) in Hok. discriminate.
Qed.

(** Every run of [store] starts with the lookup. *)
Lemma store_log_starts_with_lookup name url options w :
  exists rest,
    log (store name url options w).2
    = log w ++ EvGetObject AWS_S3_BUCKET (getS3Key name) :: rest.
Proof.
  destruct (checkFileExists name w).1 as [err|[|]] eqn:Hc.
  - rewrite (store_check_failed _ url options _ _ Hc). exists []. reflexivity.
  - rewrite (store_taken _ url options _ Hc). exists []. reflexivity.
  - destruct (render (checkFileExists name w).2 url
                (webshotOptions (generate_options options))) as [bytes|] eqn:Hr.
    + rewrite (store_rendered_log name url options w bytes Hc Hr).
      eexists. reflexivity.
    + rewrite (store_render_failed _ _ _ _ Hc Hr). cbn [snd].
      rewrite generate_log, checkFileExists_world, record_log, <- app_assoc.
      eexists. reflexivity.
Qed.

(** The handlers on a request that passes their checks. *)
Lemma Routes_store_accepted req w name url :
  req !! "name" = Some name -> name <> "" ->
  req !! "url" = Some url ->
  has_scheme_and_host (Some url) = true ->
  Routes.store req w
  = (match (store name url (Some (Routes.request_options req)) w).1 with
     | inl err => Send (code err) (BodyText (msg err))
     | inr _ => Send 200 (BodyUrl ("/f/" +:+ name))
     end,
     (store name url (Some (Routes.request_options req)) w).2).
Proof.
  intros Hn Hne Hu Hv. unfold Routes.store. cbv zeta. rewrite Hn, Hu.
  apply String.eqb_neq in Hne. cbn [str_falsy default from_option id]. rewrite Hne.
  cbn [has_scheme_and_host] in Hv.
  destruct (String.eqb url ""); [discriminate|].
  destruct (str_falsy (protocol (Url_parse url))); [discriminate|].
  destruct (str_falsy (hostname (Url_parse url))); [discriminate|].
  rewrite bind_run.
  destruct (store name url (Some (Routes.request_options req)) w).1; reflexivity.
Qed.

Lemma Routes_generate_accepted req w url :
  req !! "url" = Some url ->
  has_scheme_and_host (Some url) = true ->
  Routes.generate req w
  = (call r <- generate url (Some (Routes.request_options req));
     match r with
     | inl err => ret (Send (code err) (BodyText (msg err)))
     | inr path =>
         match imageName (Url_parse url) with
         | None => ret (Uncaught "TypeError")
         | Some imageName =>
             call content <- fs_createReadStream path;
             call unlinkError <- fs_unlink path;
             ret (Download path content imageName)
         end
     end) w.
Proof.
  intros Hu Hv. unfold Routes.generate. cbv zeta. rewrite Hu.
  cbn [str_falsy default from_option id]. cbn [has_scheme_and_host] in Hv.
  destruct (String.eqb url ""); [discriminate|].
  destruct (str_falsy (protocol (Url_parse url))); [discriminate|].
  destruct (str_falsy (hostname (Url_parse url))); [discriminate|].
  reflexivity.
Qed.

End StoreCases.

Section StoreProperties.
Context `{node : Node} `{out : Outside}.

(** X1. [checkFileExists] only reads: it makes one lookup and leaves bucket
    and disk alone.  It reports that the file exists exactly when the lookup
    is answered with an object, and it fails only when the storage service
    fails with a code other than [NoSuchKey], with status 500 and the
    service's message. *)
Theorem checkFileExists_reports name w :
  (checkFileExists name w).2 = record (EvGetObject AWS_S3_BUCKET (getS3Key name)) w
  /\ ((checkFileExists name w).1 = inr true
      <-> getObject_fault w (getS3Key name) = None
          /\ is_Some (bucket w !! getS3Key name))
  /\ (forall err, (checkFileExists name w).1 = inl err <->
        exists e, getObject_fault w (getS3Key name) = Some e
                  /\ aws_code e <> "NoSuchKey"
                  /\ err = mkErr 500 None (Some (aws_message e))).
Proof.
  split; [apply checkFileExists_world|]. split.
  - split; [apply checkFileExists_true_inv|].
    intros [Hf [o Hb]]. exact (checkFileExists_found _ _ _ Hf Hb).
  - intros err. split; [apply checkFileExists_error_inv|].
    intros (e & Hf & Hc & ->). exact (checkFileExists_fault _ _ _ Hf Hc).
Qed.

(** X2. [getStoredImageUrl] never writes: whatever it answers, bucket and
    disk are as they were, and it neither renders, uploads nor unlinks. *)
Theorem getStoredImageUrl_only_reads name w :
  bucket (getStoredImageUrl name w).2 = bucket w
  /\ disk (getStoredImageUrl name w).2 = disk w
  /\ renderer_calls (log (getStoredImageUrl name w).2) = renderer_calls (log w)
  /\ uploads (log (getStoredImageUrl name w).2) = uploads (log w)
  /\ unlinks (log (getStoredImageUrl name w).2) = unlinks (log w).
Proof.
  unfold getStoredImageUrl. rewrite bind_run, checkFileExists_world.
  destruct (checkFileExists name w).1 as [err|[|]];
    unfold ret, bind, s3_getSignedUrl; cbn [snd bucket disk record log];
    unfold renderer_calls, uploads, unlinks; rewrite ?omap_app; cbn;
    rewrite ?app_nil_r; repeat split; reflexivity.
Qed.

(** X3. A lookup the storage service fails (with a code other than
    [NoSuchKey]) ends [store] and [getStoredImageUrl] alike with
    [{code: 500, message: <the service's message>}], after that one call.
    The fetch handler sends status 500 with the message; the store handler
    reads [msg], which this error does not have, and sends status 500 with
    an undefined body. *)
Theorem storage_failure_is_reported name url options w e :
  getObject_fault w (getS3Key name) = Some e ->
  aws_code e <> "NoSuchKey" ->
  store name url options w
  = (inl (mkErr 500 None (Some (aws_message e))),
     record (EvGetObject AWS_S3_BUCKET (getS3Key name)) w)
  /\ getStoredImageUrl name w
     = (inl (mkErr 500 None (Some (aws_message e))),
        record (EvGetObject AWS_S3_BUCKET (getS3Key name)) w)
  /\ (forall req, req !! "name" = Some name ->
        (Routes.getStoredImage req w).1 = Send 500 (BodyText (Some (aws_message e))))
  /\ (forall req, req !! "name" = Some name -> name <> "" ->
        req !! "url" = Some url -> has_scheme_and_host (Some url) = true ->
        options = Some (Routes.request_options req) ->
        (Routes.store req w).1 = Send 500 (BodyText None)).
Proof.
  intros Hf Hc.
  pose proof (checkFileExists_fault _ _ _ Hf Hc) as Hchk.
  assert (Hs : store name url options w
               = (inl (mkErr 500 None (Some (aws_message e))),
                  record (EvGetObject AWS_S3_BUCKET (getS3Key name)) w))
    by exact (store_check_failed _ _ _ _ _ Hchk).
  assert (Hg : getStoredImageUrl name w
               = (inl (mkErr 500 None (Some (aws_message e))),
                  record (EvGetObject AWS_S3_BUCKET (getS3Key name)) w)).
  { unfold getStoredImageUrl. rewrite bind_run, Hchk, checkFileExists_world. reflexivity. }
  split; [exact Hs|]. split; [exact Hg|]. split.
  - intros req Hn. unfold Routes.getStoredImage. rewrite Hn, bind_run, Hg. reflexivity.
  - intros req Hn Hne Hu Hv ->.
    rewrite (Routes_store_accepted req w name url Hn Hne Hu Hv), Hs. reflexivity.
Qed.

(** X4. When the name is free and the screenshot fails, [store] calls back
    with [{code: 500, msg: 'Unable to take a screenshot'}] after the lookup
    and the screenshot: nothing is uploaded or unlinked, and bucket and disk
    are as they were. *)
Theorem store_render_failure name url options w :
  (checkFileExists name w).1 = inr false ->
  render (checkFileExists name w).2 url (webshotOptions (generate_options options)) = None ->
  (store name url options w).1 = inl (mkErr 500 (Some "Unable to take a screenshot") None)
  /\ log (store name url options w).2
     = log w ++ [EvGetObject AWS_S3_BUCKET (getS3Key name);
                 EvWebshot url (temp_path (checkFileExists name w).2)
                   (webshotOptions (generate_options options))]
  /\ bucket (store name url options w).2 = bucket w
  /\ disk (store name url options w).2 = disk w.
Proof.
  intros Hc Hr. rewrite (store_render_failed _ _ _ _ Hc Hr). cbn [fst snd].
  rewrite (generate_failed _ _ _ Hr). cbn [snd].
  rewrite record_log, !checkFileExists_world, record_log, <- app_assoc.
  repeat split; reflexivity.
Qed.


(** X6. Store, then fetch: after a [store] that succeeded, a fetch of the
    same name whose lookup is answered succeeds with the signed [getObject]
    URL of the key of [name]. *)
Theorem store_then_fetch name url options w :
  let w' := (store name url options w).2 in
  (store name url options w).1 = inr tt ->
  getObject_fault w' (getS3Key name) = None ->
  (getStoredImageUrl name w').1
  = inr (getSignedUrl (record (EvGetObject AWS_S3_BUCKET (getS3Key name)) w')
           "getObject" AWS_S3_BUCKET (getS3Key name)).
Proof.
  intros w' Hok Hf.
  destruct (store_ok_inv _ _ _ _ Hok) as (bytes & _ & _ & Hb).
  assert (Hl : bucket w' !! getS3Key name
               = Some (mkObject bytes "image/jpeg" "max-age=315360000" (mkDate 2035 1 1))).
  { unfold w'. rewrite Hb. apply lookup_insert_eq. }
  unfold getStoredImageUrl. rewrite bind_run, checkFileExists_world.
  rewrite (checkFileExists_found _ _ _ Hf Hl). reflexivity.
Qed.

(** X7. Store twice: after a [store] that succeeded, a second [store] under
    the same name, of any URL and with any options, whose lookup is answered
    is refused with status 400, and the bucket keeps what the first one
    stored. *)
Theorem store_twice_is_refused name url options url2 options2 w :
  let w' := (store name url options w).2 in
  (store name url options w).1 = inr tt ->
  getObject_fault w' (getS3Key name) = None ->
  (store name url2 options2 w').1
  = inl (mkErr 400 (Some "A URL by that name already exists") None)
  /\ bucket (store name url2 options2 w').2 = bucket w'.
Proof.
  intros w' Hok Hf.
  destruct (store_ok_inv _ _ _ _ Hok) as (bytes & _ & _ & Hb).
  assert (Hl : bucket w' !! getS3Key name
               = Some (mkObject bytes "image/jpeg" "max-age=315360000" (mkDate 2035 1 1))).
  { unfold w'. rewrite Hb. apply lookup_insert_eq. }
  rewrite (store_taken name url2 options2 w' (checkFileExists_found _ _ _ Hf Hl)).
  split; reflexivity.
Qed.

(** X8. [store] changes the bucket in one way only: after the check found
    the name free, by putting one [image/jpeg] object under the key of
    [name].  Every other key keeps what it had, whatever the outcome. *)
Theorem store_writes_one_key name url options w :
  (bucket (store name url options w).2 = bucket w
   \/ exists bytes,
        (checkFileExists name w).1 = inr false
        /\ bucket (store name url options w).2
           = <[getS3Key name := mkObject bytes "image/jpeg" "max-age=315360000"
                                  (mkDate 2035 1 1)]> (bucket w))
  /\ forall k, k <> getS3Key name ->
       bucket (store name url options w).2 !! k = bucket w !! k.
Proof.
  assert (Hcases : bucket (store name url options w).2 = bucket w
                   \/ exists bytes,
                        (checkFileExists name w).1 = inr false
                        /\ bucket (store name url options w).2
                           = <[getS3Key name := mkObject bytes "image/jpeg"
                                 "max-age=315360000" (mkDate 2035 1 1)]> (bucket w)).
  { destruct (checkFileExists name w).1 as [err|[|]] eqn:Hc.
    - left. rewrite (store_check_failed _ url options _ _ Hc). reflexivity.
    - left. rewrite (store_taken _ url options _ Hc). reflexivity.
    - destruct (render (checkFileExists name w).2 url
                  (webshotOptions (generate_options options))) as [bytes|] eqn:Hr.
      + destruct (store_rendered_world name url options w bytes Hc Hr) as [Hb _].
        destruct (upload_fault _ _); [left; exact Hb | right].
        exists bytes. split; [reflexivity | exact Hb].
      + left. rewrite (store_render_failed _ _ _ _ Hc Hr). cbn [snd].
        rewrite generate_bucket, checkFileExists_world. reflexivity. }
  split; [exact Hcases|].
  intros k Hk. destruct Hcases as [-> | (bytes & _ & ->)]; [reflexivity|].
  apply lookup_insert_ne. congruence.
Qed.

(** X9. [store] cleans up after itself: when the screenshot succeeded, the
    unlink does not fail and the temporary path was not in use, the disk is
    as it was before the call, whether or not the upload failed. *)
Theorem store_leaves_disk_clean name url options w bytes :
  let w1 := (checkFileExists name w).2 in
  let w2 := (generate url options w1).2 in
  let w3 := (s3_upload (store_upload name bytes) w2).2 in
  (checkFileExists name w).1 = inr false ->
  render w1 url (webshotOptions (generate_options options)) = Some bytes ->
  unlink_fault w3 (temp_path w1) = false ->
  disk w !! temp_path w1 = None ->
  disk (store name url options w).2 = disk w.
Proof.
  intros w1 w2 w3 Hc Hr Hu Hfresh.
  destruct (store_rendered_world name url options w bytes Hc Hr) as [_ Hd].
  fold w1 w2 w3 in Hd. rewrite Hd, Hu. apply delete_insert_id, Hfresh.
Qed.

(** X10. The store handler checks the request before anything else: a
    missing or empty [name] is answered with 'Missing name' whatever the
    rest of the request; a request without a name or without a [url] that
    has a protocol and a hostname is answered with status 400 and leaves the
    world as it was; a request that passes the checks begins with the lookup
    of the name. *)
Theorem store_handler_checks_first req w :
  (str_falsy (req !! "name") = true ->
   Routes.store req w = (Send 400 (BodyText (Some "Missing name")), w))
  /\ (str_falsy (req !! "name") = true \/ has_scheme_and_host (req !! "url") = false ->
      exists m, Routes.store req w = (Send 400 (BodyText (Some m)), w))
  /\ (str_falsy (req !! "name") = false -> has_scheme_and_host (req !! "url") = true ->
      exists name rest,
        req !! "name" = Some name
        /\ log (Routes.store req w).2
           = log w ++ EvGetObject AWS_S3_BUCKET (getS3Key name) :: rest).
Proof.
  assert (H1 : str_falsy (req !! "name") = true ->
               Routes.store req w = (Send 400 (BodyText (Some "Missing name")), w)).
  { intros Hn. unfold Routes.store. cbv zeta. rewrite Hn. reflexivity. }
  split; [exact H1|]. split.
  - intros [Hn | Hv]; [eexists; exact (H1 Hn)|].
    destruct (str_falsy (req !! "name")) eqn:Hn; [eexists; exact (H1 eq_refl)|].
    unfold Routes.store. cbv zeta. rewrite Hn.
    destruct (url_checks _ Hv) as [Hf | (u & Heq & Hf & [Hp | [Hp Hh]])].
    + rewrite Hf. eexists; reflexivity.
    + rewrite Hf, Heq. cbn [default from_option id]. rewrite Hp. eexists; reflexivity.
    + rewrite Hf, Heq. cbn [default from_option id]. rewrite Hp, Hh. eexists; reflexivity.
  - intros Hn Hv.
    destruct (req !! "name") as [name|] eqn:Hname; [|discriminate].
    destruct (req !! "url") as [url|] eqn:Hurl; [|discriminate].
    assert (Hne : name <> "").
    { intros ->. discriminate. }
    rewrite (Routes_store_accepted req w name url Hname Hne Hurl Hv). cbn [snd].
    destruct (store_log_starts_with_lookup name url (Some (Routes.request_options req)) w)
      as [rest Hl].
    exists name, rest. split; [reflexivity | exact Hl].
Qed.

End StoreProperties.

(** ** More of the workflow: the generate handler and the Renderer's options *)

Section GenerateProperties.
Context `{node : Node} `{out : Outside}.



(** X12. A [generate] request with an accepted URL whose page does not
    render is answered with status 500 and 'Unable to take a screenshot';
    the only call is the screenshot, and bucket and disk are as they
    were. *)
Theorem generate_handler_render_failure req w url :
  let wo := webshotOptions (generate_options (Some (Routes.request_options req))) in
  req !! "url" = Some url ->
  has_scheme_and_host (Some url) = true ->
  render w url wo = None ->
  (Routes.generate req w).1 = Send 500 (BodyText (Some "Unable to take a screenshot"))
  /\ log (Routes.generate req w).2 = log w ++ [EvWebshot url (temp_path w) wo]
  /\ bucket (Routes.generate req w).2 = bucket w
  /\ disk (Routes.generate req w).2 = disk w.
Proof.
  intros wo Hu Hv Hr.
  rewrite (Routes_generate_accepted req w url Hu Hv), bind_run.
  rewrite (generate_failed _ _ _ Hr). repeat split; reflexivity.
Qed.

(** X13. The name is derived after the screenshot.  For an accepted URL
    that [Url.parse] gives no pathname, the page is rendered first and the
    handler then throws on [parsedUrl.pathname.replace]: no answer is sent,
    no unlink is made, and the rendered file stays on the disk. *)
Theorem generate_handler_without_pathname req w url bytes :
  let wo := webshotOptions (generate_options (Some (Routes.request_options req))) in
  req !! "url" = Some url ->
  has_scheme_and_host (Some url) = true ->
  pathname (Url_parse url) = None ->
  render w url wo = Some bytes ->
  (Routes.generate req w).1 = Uncaught "TypeError"
  /\ log (Routes.generate req w).2 = log w ++ [EvWebshot url (temp_path w) wo]
  /\ disk (Routes.generate req w).2 !! temp_path w = Some bytes.
Proof.
  intros wo Hu Hv Hp Hr.
  assert (Hn : imageName (Url_parse url) = None).
  { unfold imageName. rewrite Hp. destruct (hostname (Url_parse url)); reflexivity. }
  rewrite (Routes_generate_accepted req w url Hu Hv), bind_run.
  rewrite (generate_ok _ _ _ _ Hr). cbn [fst snd]. rewrite Hn.
  unfold ret; cbn [fst snd log disk].
  repeat split; try reflexivity. apply lookup_insert_eq.
Qed.

Lemma js_or_idempotent v d : js_or (js_or v d) d = js_or v d.
Proof. unfold js_or. destruct (truthy v) eqn:Hv; [rewrite Hv|destruct (truthy d)]; reflexivity. Qed.

Lemma Options_ext (o1 o2 : Options) :
  width o1 = width o2 -> height o1 = height o2 -> delay o1 = delay o2 ->
  userAgent o1 = userAgent o2 -> full o1 = full o2 -> o1 = o2.
Proof. destruct o1, o2; cbn; intros; subst; reflexivity. Qed.

(** The delay after [generate]'s assignments does not compare greater than
    10000. *)
Lemma generate_options_delay options :
  js_gt (delay (generate_options options)) 10000 = false.
Proof.
  assert (H : forall o, js_gt (delay (generate_options (Some o))) 10000 = false).
  { intros o. destruct (generate_options_fields o) as (_ & _ & Hd & _). rewrite Hd.
    destruct (js_gt (js_or (delay o) (VNum 0)) 10000) eqn:Hgt; [reflexivity | exact Hgt]. }
  destruct options as [o|]; [apply H | apply (H empty_options)].
Qed.

(** X14. Whatever value [delay] has (a number, a string of the request,
    anything), the delay [generate] and [store] hand to the Renderer does
    not compare greater than 10000. *)
Theorem renderer_delay_not_above_maximum url options w :
  exists wo,
    renderer_calls (log (generate url options w).2)
    = renderer_calls (log w) ++ [(url, temp_path w, wo)]
    /\ (forall name, exists calls,
          renderer_calls (log (store name url options w).2)
          = renderer_calls (log w) ++ calls
          /\ forall c, c ∈ calls -> c.2 = wo)
    /\ js_gt (renderDelay wo) 10000 = false.
Proof.
  exists (webshotOptions (generate_options options)).
  split; [apply generate_renderer_calls|].
  split; [intros name; apply store_renders_through_generate|].
  apply generate_options_delay.
Qed.

(** X15. [generate]'s assignments are idempotent: on an [options] object
    they have already been applied to (the object is changed in place) they
    change nothing, so a second screenshot with the same object gets the
    same options. *)
Theorem generate_options_idempotent options :
  generate_options (Some (generate_options options)) = generate_options options.
Proof.
  assert (H : forall o,
             generate_options (Some (generate_options (Some o))) = generate_options (Some o)).
  { intros o.
    destruct (generate_options_fields o) as (Hw & Hh & Hd & Hu & Hf).
    destruct (generate_options_fields (generate_options (Some o)))
      as (Hw' & Hh' & Hd' & Hu' & Hf').
    apply Options_ext.
    - rewrite Hw', Hw. apply js_or_idempotent.
    - rewrite Hh', Hh. apply js_or_idempotent.
    - rewrite Hd', Hd.
      destruct (js_gt (js_or (delay o) (VNum 0)) 10000) eqn:Hgt.
      + reflexivity.
      + rewrite js_or_idempotent, Hgt. reflexivity.
    - rewrite Hu', Hu. apply js_or_idempotent.
    - rewrite Hf', Hf. reflexivity. }
  destruct options as [o|]; [apply H | apply (H empty_options)].
Qed.

(** X16. The whole page is captured only for [full === true]: the
    Renderer's [shotSize] is [{width: 'window', height: 'all'}] when
    [options.full] is the boolean [true] and [{width: 'window', height:
    'window'}] for every other value; through the handlers, exactly when the
    request's [full] is the string 'true'.  TLS errors are always ignored. *)
Theorem full_page_only_for_true url options w :
  exists wo,
    renderer_calls (log (generate url options w).2)
    = renderer_calls (log w) ++ [(url, temp_path w, wo)]
    /\ shotSize_width wo = "window"
    /\ (shotSize_height wo = "all" \/ shotSize_height wo = "window")
    /\ (shotSize_height wo = "all"
        <-> exists o, options = Some o /\ full o = VBool true)
    /\ (forall req, options = Some (Routes.request_options req) ->
        (shotSize_height wo = "all" <-> req !! "full" = Some "true"))
    /\ phantomConfig_ignore_ssl_errors wo = true
    /\ phantomConfig_ssl_protocol wo = "any".
Proof.
  exists (webshotOptions (generate_options options)).
  split; [apply generate_renderer_calls|].
  assert (Hfull : full (generate_options options)
                  = match options with Some o => full o | None => VUndefined end).
  { destruct options as [o|].
    - destruct (generate_options_fields o) as (_ & _ & _ & _ & Hf). exact Hf.
    - destruct (generate_options_fields empty_options) as (_ & _ & _ & _ & Hf). exact Hf. }
  assert (Hall : forall v, (if js_is_true v then "all" else "window") = "all"
                           <-> v = VBool true).
  { intros v. destruct v as [| |[|]| |]; cbn [js_is_true];
      split; intros H; reflexivity || discriminate. }
  unfold webshotOptions;
    cbn [shotSize_width shotSize_height phantomConfig_ignore_ssl_errors
           phantomConfig_ssl_protocol].
  rewrite Hfull.
  split; [reflexivity|]. split; [|split; [|split; [|split; reflexivity]]].
  - destruct (js_is_true _); [left | right]; reflexivity.
  - rewrite Hall. destruct options as [o|].
    + split; [intros Hf; exists o; split; [reflexivity | exact Hf]|].
      intros (o' & [= <-] & Hf). exact Hf.
    + split; [discriminate | intros (o' & Ho & _); discriminate].
  - intros req ->. rewrite Hall. cbn [Routes.request_options full].
    case_bool_decide as Hd; split; intros H; try assumption; try reflexivity.
    + discriminate.
    + contradiction.
Qed.

(** X17. The handlers hand the request's strings to the Renderer as they
    are, without converting them to numbers: a non-empty [width], [height]
    or [userAgent] arrives as that string, a missing or empty one as 1024,
    768 and the empty string; a non-empty [delay] arrives as that string
    unless it compares greater than 10000, which gives the number 10000. *)
Theorem request_strings_reach_renderer req url w :
  let given k := match req !! k with
                 | Some s => if String.eqb s "" then None else Some s
                 | None => None
                 end in
  exists wo,
    renderer_calls (log (generate url (Some (Routes.request_options req)) w).2)
    = renderer_calls (log w) ++ [(url, temp_path w, wo)]
    /\ windowSize_width wo
       = match given "width" with Some s => VStr s | None => VNum 1024 end
    /\ windowSize_height wo
       = match given "height" with Some s => VStr s | None => VNum 768 end
    /\ ws_userAgent wo
       = match given "userAgent" with Some s => VStr s | None => VStr "" end
    /\ renderDelay wo
       = match given "delay" with
         | Some s => if StringToNumber_gt s 10000 then VNum 10000 else VStr s
         | None => VNum 0
         end.
Proof.
  intros given.
  exists (webshotOptions (generate_options (Some (Routes.request_options req)))).
  split; [apply generate_renderer_calls|].
  destruct (generate_options_fields (Routes.request_options req)) as (Hw & Hh & Hd & Hu & _).
  unfold webshotOptions; cbn [windowSize_width windowSize_height ws_userAgent renderDelay].
  rewrite Hw, Hh, Hd, Hu.
  unfold given, Routes.request_options, Routes.param, js_or;
    cbn [width height delay userAgent].
  repeat split.
  - destruct (req !! "width") as [s|]; cbn [truthy]; [destruct (String.eqb s "")|]; reflexivity.
  - destruct (req !! "height") as [s|]; cbn [truthy]; [destruct (String.eqb s "")|]; reflexivity.
  - destruct (req !! "userAgent") as [s|]; cbn [truthy]; [destruct (String.eqb s "")|];
      reflexivity.
  - destruct (req !! "delay") as [s|]; cbn [truthy]; [destruct (String.eqb s "")|];
      reflexivity.
Qed.

End GenerateProperties.

(** ** More on the name of the download *)

Lemma list_ascii_of_string_app (a b : string) :
  list_ascii_of_string (a +:+ b) = list_ascii_of_string a ++ list_ascii_of_string b.
Proof.
  induction a as [|c a IH]; [reflexivity|].
  rewrite append_cons. cbn [list_ascii_of_string app]. f_equal. exact IH.
Qed.

Lemma replace_nonword_word_chars s :
  forallb is_word_char (list_ascii_of_string (replace_nonword s)) = true.
Proof.
  induction s as [|c s IH]; [reflexivity|].
  cbn [replace_nonword list_ascii_of_string forallb]. rewrite IH.
  destruct (is_word_char c) eqn:Hc; [rewrite Hc|]; reflexivity.
Qed.

Lemma replace_final_underscore_word_chars s :
  forallb is_word_char (list_ascii_of_string s) = true ->
  forallb is_word_char (list_ascii_of_string (replace_final_underscore s)) = true.
Proof.
  induction s as [|c s IH]; [reflexivity|].
  destruct s as [|c' s'].
  - cbn [replace_final_underscore]. destruct (Ascii.eqb c "_"); [reflexivity | auto].
  - change (replace_final_underscore (String c (String c' s')))
      with (String c (replace_final_underscore (String c' s'))).
    cbn [list_ascii_of_string forallb] in *.
    intros H. apply andb_true_iff in H as [Hc H].
    rewrite Hc. cbn [andb]. apply IH, H.
Qed.

Lemma replace_final_underscore_app s :
  replace_final_underscore (s +:+ "_") = s.
Proof.
  induction s as [|c s IH]; [reflexivity|].
  rewrite append_cons. destruct s as [|c' s'].
  - reflexivity.
  - rewrite append_cons in *.
    change (replace_final_underscore (String c (String c' (s' +:+ "_"))))
      with (String c (replace_final_underscore (String c' (s' +:+ "_")))).
    rewrite IH. reflexivity.
Qed.

(** X18. Whenever [generate] derives a name it is a stem followed by
    [.png], and the stem consists of word characters only (letters, digits
    and underscores): no dot, slash or space of the URL survives, and the
    stem is no longer than host and path together. *)
Theorem imageName_is_word_characters parsedUrl name :
  imageName parsedUrl = Some name ->
  exists host path stem,
    hostname parsedUrl = Some host /\ pathname parsedUrl = Some path
    /\ name = stem +:+ ".png"
    /\ forallb is_word_char (list_ascii_of_string stem) = true
    /\ (String.length stem <= String.length host + String.length path)%nat.
Proof.
  unfold imageName.
  destruct (hostname parsedUrl) as [host|]; [|discriminate].
  destruct (pathname parsedUrl) as [path|]; [|discriminate].
  intros Hn. exists host, path.
  exists (replace_nonword host +:+ replace_final_underscore (replace_nonword path)).
  split; [reflexivity|]. split; [reflexivity|].
  assert (Hlen : forall s, String.length (replace_nonword s) = String.length s).
  { induction s as [|c s IH]; [reflexivity|]. cbn. rewrite IH. reflexivity. }
  assert (Hlen' : forall s, (String.length (replace_final_underscore s) <= String.length s)%nat).
  { induction s as [|c s IH]; [reflexivity|]. destruct s as [|c' s'].
    - cbn. destruct (Ascii.eqb c "_"); cbn; lia.
    - change (replace_final_underscore (String c (String c' s')))
        with (String c (replace_final_underscore (String c' s'))).
      cbn [String.length] in *. lia. }
  assert (Happ : forall a b : string,
             String.length (a +:+ b) = (String.length a + String.length b)%nat).
  { induction a as [|c a IH]; intros b; [reflexivity|].
    rewrite append_cons. cbn [String.length]. rewrite IH. reflexivity. }
  split; [|split].
  - injection Hn as <-.
    destruct (String.eqb_spec (replace_final_underscore (replace_nonword path)) "")
      as [He|_]; cbn [negb]; [|reflexivity].
    rewrite He. f_equal. clear.
    induction (replace_nonword host) as [|c s IH]; [reflexivity|].
    rewrite append_cons, <- IH. reflexivity.
  - rewrite list_ascii_of_string_app, forallb_app, replace_nonword_word_chars.
    cbn [andb]. apply replace_final_underscore_word_chars, replace_nonword_word_chars.
  - rewrite Happ, Hlen. pose proof (Hlen' (replace_nonword path)) as H.
    rewrite Hlen in H. lia.
Qed.

(** X19. One non-word character at the end of the path, such as the final
    slash, does not change the name: when the path does not already end
    with a non-word character or an underscore, the path followed by a
    non-word character gets the name of the path itself. *)
Theorem imageName_ignores_final_separator proto host path c :
  is_word_char c = false ->
  ends_with_underscore (replace_nonword path) = false ->
  imageName (mkUrl proto (Some host) (Some (path +:+ String c "")))
  = imageName (mkUrl proto (Some host) (Some path)).
Proof.
  intros Hc He. unfold imageName; cbn [hostname pathname].
  rewrite replace_nonword_app. cbn [replace_nonword]. rewrite Hc.
  rewrite replace_final_underscore_app.
  pose proof (replace_final_underscore_spec (replace_nonword path)) as Hs.
  rewrite He in Hs. rewrite Hs. reflexivity.
Qed.

Section GenerateContract.
Context `{node : Node} `{out : Outside}.

(** X20. [generate] calls back either with the path of a file that holds
    the rendered bytes, every other file being as it was, or, when the
    page does not render, with [{code: 500, msg: 'Unable to take a
    screenshot'}] and the disk untouched.  It never touches the bucket and
    never unlinks: the file is the caller's to delete. *)
Theorem generate_returns_rendered_file url options w :
  bucket (generate url options w).2 = bucket w
  /\ unlinks (log (generate url options w).2) = unlinks (log w)
  /\ match (generate url options w).1 with
     | inr path =>
         exists bytes,
           render w url (webshotOptions (generate_options options)) = Some bytes
           /\ path = temp_path w
           /\ disk (generate url options w).2 !! path = Some bytes
           /\ forall p, p <> path -> disk (generate url options w).2 !! p = disk w !! p
     | inl err =>
         err = mkErr 500 (Some "Unable to take a screenshot") None
         /\ render w url (webshotOptions (generate_options options)) = None
         /\ disk (generate url options w).2 = disk w
     end.
Proof.
  split; [apply generate_bucket|]. split.
  { rewrite generate_log. unfold unlinks. rewrite omap_app. cbn. apply app_nil_r. }
  destruct (render w url (webshotOptions (generate_options options))) as [bytes|] eqn:Hr.
  - rewrite (generate_ok _ _ _ _ Hr). cbn [fst snd disk].
    exists bytes. split; [reflexivity|]. split; [reflexivity|].
    split; [apply lookup_insert_eq|].
    intros p Hp. apply lookup_insert_ne. congruence.
  - rewrite (generate_failed _ _ _ Hr). cbn [fst snd].
    split; [reflexivity|]. split; reflexivity.
Qed.

End GenerateContract.

(** *** The properties on concrete runs *)

Section MoreConcreteRuns.
Import Reference.

(** The storage service hangs up on the lookup. *)
Lemma storage_failure_is_reported_witness :
  (@store node (outside true false false false) "site1" "http://example.com/about/"
     None empty_world).1
  = inl (mkErr 500 None (Some "socket hang up"))
  /\ (@Routes.getStoredImage node (outside true false false false)
        (request [("name", "site1")]) empty_world).1
     = Send 500 (BodyText (Some "socket hang up")).
Proof.
  destruct (@storage_failure_is_reported node (outside true false false false)
              "site1" "http://example.com/about/" None empty_world
              (mkAwsError "NetworkingError" "socket hang up"))
    as (Hs & _ & Hh & _).
  - reflexivity.
  - discriminate.
  - split; [rewrite Hs; reflexivity|].
    apply Hh. vm_compute; reflexivity.
Defined.

(** The page does not render. *)
Lemma store_render_failure_witness :
  (@store node (outside false true false false) "site1" "http://example.com/about/"
     None empty_world).1
  = inl (mkErr 500 (Some "Unable to take a screenshot") None)
  /\ uploads (log (@store node (outside false true false false) "site1"
                     "http://example.com/about/" None empty_world).2) = [].
Proof.
  destruct (@store_render_failure node (outside false true false false)
              "site1" "http://example.com/about/" None empty_world) as (Hr & Hl & _).
  - vm_compute; reflexivity.
  - reflexivity.
  - split; [exact Hr | rewrite Hl; reflexivity].
Defined.

(** "site1" is stored, then fetched. *)
Lemma store_then_fetch_witness :
  (@getStoredImageUrl node all_well "site1"
     (@store node all_well "site1" "http://example.com/about/" None empty_world).2).1
  = inr "https://webshots.s3.amazonaws.com/shots/site1?Signature=x".
Proof.
  rewrite (@store_then_fetch node all_well "site1" "http://example.com/about/" None
             empty_world).
  - vm_compute; reflexivity.
  - vm_compute; reflexivity.
  - reflexivity.
Defined.

(** "site1" is stored, then stored again for another page. *)
Lemma store_twice_is_refused_witness :
  (@store node all_well "site1" "http://example.org/" None
     (@store node all_well "site1" "http://example.com/about/" None empty_world).2).1
  = inl (mkErr 400 (Some "A URL by that name already exists") None).
Proof.
  apply (@store_twice_is_refused node all_well "site1" "http://example.com/about/" None
           "http://example.org/" None empty_world).
  - vm_compute; reflexivity.
  - reflexivity.
Defined.

(** The upload fails; the disk is empty again all the same. *)
Lemma store_leaves_disk_clean_witness :
  disk (@store node (outside false false true false) "site1" "http://example.com/about/"
          None empty_world).2 = ∅.
Proof.
  apply (@store_leaves_disk_clean node (outside false false true false) "site1"
           "http://example.com/about/" None empty_world png).
  - vm_compute; reflexivity.
  - reflexivity.
  - reflexivity.
  - vm_compute; reflexivity.
Defined.

(** No name and a URL without a protocol: the name is what is missed. *)
Lemma store_handler_checks_first_witness :
  @Routes.store node all_well (request [("url", "not-a-url")]) empty_world
  = (Send 400 (BodyText (Some "Missing name")), empty_world).
Proof.
  apply (@store_handler_checks_first node all_well (request [("url", "not-a-url")])
           empty_world).
  vm_compute; reflexivity.
Defined.


(** The page does not render. *)
Lemma generate_handler_render_failure_witness :
  (@Routes.generate node (outside false true false false)
     (request [("url", "http://example.com/about/")]) empty_world).1
  = Send 500 (BodyText (Some "Unable to take a screenshot")).
Proof.
  apply (@generate_handler_render_failure node (outside false true false false)
           (request [("url", "http://example.com/about/")]) empty_world
           "http://example.com/about/").
  - vm_compute; reflexivity.
  - vm_compute; reflexivity.
  - reflexivity.
Defined.

(** A [mailto:] URL has a protocol and a hostname, and no pathname. *)
Lemma generate_handler_without_pathname_witness :
  (@Routes.generate node all_well (request [("url", "mailto:user@example.com")])
     empty_world).1 = Uncaught "TypeError"
  /\ disk (@Routes.generate node all_well (request [("url", "mailto:user@example.com")])
             empty_world).2 !! "/tmp/0.png" = Some png.
Proof.
  destruct (@generate_handler_without_pathname node all_well
              (request [("url", "mailto:user@example.com")]) empty_world
              "mailto:user@example.com" png) as (Hr & _ & Hd).
  - vm_compute; reflexivity.
  - vm_compute; reflexivity.
  - vm_compute; reflexivity.
  - reflexivity.
  - split; [exact Hr | exact Hd].
Defined.

(** The name of the example is made of word characters. *)
Lemma imageName_is_word_characters_witness :
  exists stem,
    "okfn_org_about_how_we_can_help_you.png" = stem +:+ ".png"
    /\ forallb is_word_char (list_ascii_of_string stem) = true.
Proof.
  destruct (imageName_is_word_characters
              (mkUrl (Some "http:") (Some "okfn.org") (Some "/about/how-we-can-help-you/"))
              "okfn_org_about_how_we_can_help_you.png")
    as (host & path & stem & _ & _ & Hn & Hw & _).
  - vm_compute; reflexivity.
  - exists stem. split; [exact Hn | exact Hw].
Defined.

(** [/about/] and [/about] get the same name. *)
Lemma imageName_ignores_final_separator_witness :
  imageName (mkUrl (Some "http:") (Some "okfn.org") (Some "/about/"))
  = imageName (mkUrl (Some "http:") (Some "okfn.org") (Some "/about")).
Proof.
  apply (imageName_ignores_final_separator (Some "http:") "okfn.org" "/about" "/").
  - reflexivity.
  - reflexivity.
Defined.

End MoreConcreteRuns.
